(** * deno_serial: a shallow embedding of [main.ts]

    The program opens a POSIX serial device through libc (reached with
    [Deno.dlopen]), rewrites its termios image to raw 8N1 without flow
    control, and wraps the descriptor in a [SerialPort] offering [read],
    [write], [close] and a line generator.

    The embedding keeps the shape of the source:
    - JavaScript numbers that the program only uses as integers are [Z],
      with the conversions ([ToInt32], [ToUint32], [ToUint8]) written out;
    - an [ArrayBuffer] / [Uint8Array] is a [list byte], a [DataView]
      access is a function on it that throws [RangeError] out of range;
    - a string is its sequence of UTF-16 code units;
    - libc is a record of functions over an abstract world; every call
      through the FFI is logged, so that the order and number of system
      calls can be stated; a 64-bit result reaches the program as a
      number or as a BigInt, as the runtime decides;
    - [async] functions are computations in a small monad that threads
      the world, collects the log and propagates exceptions. *)

From Stdlib Require Import ZArith Lia Bool.
From Stdlib Require Import Strings.String Strings.Ascii Strings.Byte.
From stdpp Require Import base list.

Local Open Scope Z_scope.

(** ** JavaScript numbers and strings *)

(** The integer conversions of ECMAScript, on integral numbers. *)
Definition ToInt32 (z : Z) : Z := (z + 2 ^ 31) mod 2 ^ 32 - 2 ^ 31.
Definition ToUint32 (z : Z) : Z := z mod 2 ^ 32.
Definition ToUint8 (z : Z) : Z := z mod 2 ^ 8.

(** [a & b], [a | b] and [~a]: the operands are converted with [ToInt32],
    the result is a signed 32-bit integer. *)
Definition js_and (a b : Z) : Z := Z.land (ToInt32 a) (ToInt32 b).
Definition js_or (a b : Z) : Z := Z.lor (ToInt32 a) (ToInt32 b).
Definition js_not (a : Z) : Z := Z.lnot (ToInt32 a).

Declare Scope js_scope.
Delimit Scope js_scope with js.
Infix ".&" := js_and (at level 40, left associativity) : js_scope.
Infix ".|" := js_or (at level 50, left associativity) : js_scope.
Notation ".~ a" := (js_not a) (at level 35, right associativity) : js_scope.

(** A string is the list of its UTF-16 code units. *)
Definition jsstring : Type := list Z.

(** A string literal of the source (ASCII). *)
Definition lit (s : string) : jsstring :=
  map (fun a => Z.of_N (N_of_ascii a)) (list_ascii_of_string s).

(** ["\n"] *)
Definition NL : Z := 10.

(** Exceptions the program can raise: [new Error(message)] of the source,
    the [RangeError] of the typed-array constructor and of [DataView],
    and the [TypeError] of a BigInt used where a number is converted
    (their messages are engine-defined and not modelled). *)
Inductive exn : Type :=
| Error (message : jsstring)
| RangeError
| TypeError.

Inductive completion (A : Type) : Type :=
| Normal (a : A)
| Throw (e : exn).
Arguments Normal {A} a.
Arguments Throw {A} e.

(** An integer value as the FFI hands over a 64-bit result ([isize]):
    a number, or a BigInt of the same value. *)
Inductive integer : Type :=
| Number (z : Z)
| BigInt (z : Z).

Definition integer_value (v : integer) : Z :=
  match v with
  | Number z => z
  | BigInt z => z
  end.

(** [v < 0]: a BigInt compares with a number by value. *)
Definition less_than_zero (v : integer) : bool := integer_value v <? 0.

(** [v !== n] for a number [n]: a BigInt is never strictly equal to a
    number. *)
Definition strict_not_equal (v : integer) (n : Z) : bool :=
  match v with
  | Number z => negb (z =? n)
  | BigInt _ => true
  end.

(** [ToIntegerOrInfinity(v)], as [subarray] applies it to its bounds: a
    BigInt does not convert to a number. *)
Definition ToIntegerOrInfinity (v : integer) : completion Z :=
  match v with
  | Number z => Normal z
  | BigInt _ => Throw TypeError
  end.

(** ** Bytes and buffers *)

#[global] Instance byte_eq_decision : EqDecision byte := Byte.byte_eq_dec.

Definition byte_to_Z (b : byte) : Z := Z.of_N (Byte.to_N b).

Definition byte_of_Z (z : Z) : byte :=
  match Byte.of_N (Z.to_N (z mod 256)) with
  | Some b => b
  | None => x00
  end.

(** [new Uint8Array(n)]: [n] zero bytes; [ToIndex] refuses a negative
    length and one above 2^53 - 1. (An engine that runs out of memory
    refuses shorter ones too; that limit is not modelled.) *)
Definition new_Uint8Array (n : Z) : completion (list byte) :=
  if (n <? 0) || (2 ^ 53 - 1 <? n) then Throw RangeError
  else Normal (replicate (Z.to_nat n) x00).

(** [new ArrayBuffer(n)] *)
Definition new_ArrayBuffer (n : Z) : completion (list byte) := new_Uint8Array n.

(** [a.subarray(begin, end)], with the relative indices of the standard:
    a negative index counts from the end, all are clamped to the length. *)
Definition relative_index (len i : Z) : Z :=
  if i <? 0 then Z.max (len + i) 0 else Z.min i len.

Definition subarray (a : list byte) (begin_ end_ : Z) : list byte :=
  let len := Z.of_nat (length a) in
  let b := relative_index len begin_ in
  let e := relative_index len end_ in
  take (Z.to_nat (Z.max (e - b) 0)) (drop (Z.to_nat b) a).

(** Bytes written at an offset, and the bytes read there. *)
Definition blit (buf : list byte) (off : nat) (bs : list byte) : list byte :=
  take off buf ++ bs ++ drop (off + length bs) buf.

Definition slice (buf : list byte) (off n : nat) : list byte :=
  take n (drop off buf).

(** What a libc function stores through a pointer to [buf]: the bytes
    [stored] from the start of the buffer. The model keeps the store
    inside the buffer (anything beyond would be outside the program). *)
Definition poke (buf stored : list byte) : list byte :=
  take (length buf) (stored ++ drop (length stored) buf).

(** Little-endian value of a byte sequence and its inverse. *)
Fixpoint le_combine (bs : list byte) : Z :=
  match bs with
  | [] => 0
  | b :: bs' => byte_to_Z b + 256 * le_combine bs'
  end.

Fixpoint le_split (n : nat) (v : Z) : list byte :=
  match n with
  | O => []
  | S n' => byte_of_Z v :: le_split n' (v / 256)
  end.

Definition ordered (littleEndian : bool) (bs : list byte) : list byte :=
  if littleEndian then bs else reverse bs.

(** [DataView] accessors: [RangeError] when the access leaves the buffer. *)
Definition in_view (buf : list byte) (byteOffset : Z) (size : nat) : bool :=
  (0 <=? byteOffset) && (byteOffset + Z.of_nat size <=? Z.of_nat (length buf)).

Definition getUint32 (buf : list byte) (byteOffset : Z) (littleEndian : bool)
  : completion Z :=
  if in_view buf byteOffset 4
  then Normal (le_combine (ordered littleEndian (slice buf (Z.to_nat byteOffset) 4)))
  else Throw RangeError.

Definition setUint32 (buf : list byte) (byteOffset : Z) (value : Z)
    (littleEndian : bool) : completion (list byte) :=
  if in_view buf byteOffset 4
  then Normal (blit buf (Z.to_nat byteOffset)
                 (ordered littleEndian (le_split 4 (ToUint32 value))))
  else Throw RangeError.

Definition getUint8 (buf : list byte) (byteOffset : Z) : completion Z :=
  if in_view buf byteOffset 1
  then Normal (le_combine (slice buf (Z.to_nat byteOffset) 1))
  else Throw RangeError.

Definition setUint8 (buf : list byte) (byteOffset : Z) (value : Z)
  : completion (list byte) :=
  if in_view buf byteOffset 1
  then Normal (blit buf (Z.to_nat byteOffset) (le_split 1 (ToUint8 value)))
  else Throw RangeError.

(** [dataView.setInt16(off, v, le)] and the native read [new Int16Array(buffer)[i]]. *)
Definition ToInt16 (z : Z) : Z := (z + 2 ^ 15) mod 2 ^ 16 - 2 ^ 15.

Definition setInt16 (buf : list byte) (byteOffset : Z) (value : Z)
    (littleEndian : bool) : completion (list byte) :=
  if in_view buf byteOffset 2
  then Normal (blit buf (Z.to_nat byteOffset)
                 (ordered littleEndian (le_split 2 (value mod 2 ^ 16))))
  else Throw RangeError.

Definition Int16Array_get (native_le : bool) (buf : list byte) (i : nat) : option Z :=
  if (2 * i + 2 <=? length buf)%nat
  then Some (ToInt16 (le_combine (ordered native_le (slice buf (2 * i) 2))))
  else None.

(** ** Text encoding ([TextEncoder], [TextDecoder])

    Both are the UTF-8 codecs of the Encoding standard. *)

Definition is_high_surrogate (c : Z) : bool := (0xD800 <=? c) && (c <=? 0xDBFF).
Definition is_low_surrogate (c : Z) : bool := (0xDC00 <=? c) && (c <=? 0xDFFF).

(** The code points of a string; a lone surrogate reads as U+FFFD. *)
Fixpoint code_points (s : jsstring) : list Z :=
  match s with
  | [] => []
  | c :: s' =>
      if is_high_surrogate c then
        match s' with
        | d :: s'' =>
            if is_low_surrogate d
            then (0x10000 + (c - 0xD800) * 0x400 + (d - 0xDC00)) :: code_points s''
            else 0xFFFD :: code_points s'
        | [] => [0xFFFD]
        end
      else if is_low_surrogate c then 0xFFFD :: code_points s'
      else c :: code_points s'
  end.

Definition utf8_of_code_point (cp : Z) : list byte :=
  if cp <? 0x80 then [byte_of_Z cp]
  else if cp <? 0x800 then
    [byte_of_Z (Z.lor 0xC0 (Z.shiftr cp 6));
     byte_of_Z (Z.lor 0x80 (Z.land cp 0x3F))]
  else if cp <? 0x10000 then
    [byte_of_Z (Z.lor 0xE0 (Z.shiftr cp 12));
     byte_of_Z (Z.lor 0x80 (Z.land (Z.shiftr cp 6) 0x3F));
     byte_of_Z (Z.lor 0x80 (Z.land cp 0x3F))]
  else
    [byte_of_Z (Z.lor 0xF0 (Z.shiftr cp 18));
     byte_of_Z (Z.lor 0x80 (Z.land (Z.shiftr cp 12) 0x3F));
     byte_of_Z (Z.lor 0x80 (Z.land (Z.shiftr cp 6) 0x3F));
     byte_of_Z (Z.lor 0x80 (Z.land cp 0x3F))].

(** [new TextEncoder().encode(s)] *)
Definition TextEncoder_encode (s : jsstring) : list byte :=
  flat_map utf8_of_code_point (code_points s).

(** The UTF-8 decoder's state: the code point being assembled, the
    continuation bytes needed and seen, and the bounds of the next one. *)
Record utf8_state : Type := {
  u_code_point : Z;
  u_needed : Z;
  u_seen : Z;
  u_lower : Z;
  u_upper : Z
}.

Definition utf8_init : utf8_state :=
  {| u_code_point := 0; u_needed := 0; u_seen := 0; u_lower := 0x80; u_upper := 0xBF |}.

(** A byte read when no continuation is pending. *)
Definition utf8_lead (b : Z) : list Z * utf8_state :=
  if b <=? 0x7F then ([b], utf8_init)
  else if (0xC2 <=? b) && (b <=? 0xDF) then
    ([], {| u_code_point := Z.land b 0x1F; u_needed := 1; u_seen := 0;
            u_lower := 0x80; u_upper := 0xBF |})
  else if (0xE0 <=? b) && (b <=? 0xEF) then
    ([], {| u_code_point := Z.land b 0xF; u_needed := 2; u_seen := 0;
            u_lower := if b =? 0xE0 then 0xA0 else 0x80;
            u_upper := if b =? 0xED then 0x9F else 0xBF |})
  else if (0xF0 <=? b) && (b <=? 0xF4) then
    ([], {| u_code_point := Z.land b 0x7; u_needed := 3; u_seen := 0;
            u_lower := if b =? 0xF0 then 0x90 else 0x80;
            u_upper := if b =? 0xF4 then 0x8F else 0xBF |})
  else ([0xFFFD], utf8_init).

(** One byte: the code points it completes and the next state. A byte
    that cannot continue the sequence ends it with U+FFFD and is read
    again as a lead byte. *)
Definition utf8_step (st : utf8_state) (b : Z) : list Z * utf8_state :=
  if u_needed st =? 0 then utf8_lead b
  else if (b <? u_lower st) || (u_upper st <? b) then
    let '(out, st') := utf8_lead b in (0xFFFD :: out, st')
  else
    let cp := Z.lor (Z.shiftl (u_code_point st) 6) (Z.land b 0x3F) in
    let seen := u_seen st + 1 in
    if seen =? u_needed st then ([cp], utf8_init)
    else ([], {| u_code_point := cp; u_needed := u_needed st; u_seen := seen;
                 u_lower := 0x80; u_upper := 0xBF |}).

Fixpoint utf8_run (st : utf8_state) (bs : list byte) : list Z :=
  match bs with
  | [] => if u_needed st =? 0 then [] else [0xFFFD]
  | b :: bs' =>
      let '(out, st') := utf8_step st (byte_to_Z b) in
      out ++ utf8_run st' bs'
  end.

Definition strip_BOM (cps : list Z) : list Z :=
  match cps with
  | cp :: rest => if cp =? 0xFEFF then rest else cps
  | [] => []
  end.

Definition utf16_of_code_point (cp : Z) : jsstring :=
  if cp <? 0x10000 then [cp]
  else [0xD800 + Z.shiftr (cp - 0x10000) 10; 0xDC00 + Z.land (cp - 0x10000) 0x3FF].

(** [new TextDecoder().decode(bytes)]: a fresh, non-streaming, non-fatal
    decoder that drops a leading byte order mark. *)
Definition TextDecoder_decode (bs : list byte) : jsstring :=
  flat_map utf16_of_code_point (strip_BOM (utf8_run utf8_init bs)).

(** [s.split(sep)] for a separator of one code unit: the segments between
    its occurrences, at least one. *)
Fixpoint split (sep : Z) (s : jsstring) : list jsstring :=
  match s with
  | [] => [[]]
  | c :: s' =>
      if c =? sep then [] :: split sep s'
      else match split sep s' with
           | seg :: segs => (c :: seg) :: segs
           | [] => [[c]]
           end
  end.

(** [a.pop()]: the last element ([None] for [undefined]) and the array
    that remains. *)
Definition pop {A : Type} (a : list A) : option A * list A :=
  (last a, removelast a).

(** ** Constants of the source *)

(** An octal literal ([0o...]) read digit by digit. *)
Definition oct (s : string) : Z :=
  fold_left (fun acc a => 8 * acc + (Z.of_N (N_of_ascii a) - 48))
            (list_ascii_of_string s) 0.

Definition O_RDWR : Z := 0x2.
Definition O_NOCTTY : Z := 0x100.
Definition O_SYNC : Z := 0x101000.
Definition TCSANOW : Z := 0.

Definition CSIZE : Z := oct "000060".
Definition CS5 : Z := oct "000000".
Definition CS6 : Z := oct "000020".
Definition CS7 : Z := oct "000040".
Definition CS8 : Z := oct "000060".
Definition CSTOPB : Z := oct "000100".
Definition CREAD : Z := oct "000200".
Definition PARENB : Z := oct "000400".
Definition PARODD : Z := oct "001000".
Definition HUPCL : Z := oct "002000".
Definition CLOCAL : Z := oct "004000".
Definition CRTSCTS : Z := oct "20000000000".
Definition VTIME : Z := 5.
Definition VMIN : Z := 6.

Inductive Baudrate : Type :=
| B9600 | B19200 | B38400 | B57600 | B115200 | B230400 | B460800
| B500000 | B576000 | B921600 | B1000000 | B1152000 | B1500000
| B2000000 | B2500000 | B3000000 | B3500000 | B4000000.

(** The number a member of the [const enum] stands for. *)
Definition Baudrate_value (b : Baudrate) : Z :=
  match b with
  | B9600 => oct "000015"
  | B19200 => oct "000016"
  | B38400 => oct "000017"
  | B57600 => oct "010001"
  | B115200 => oct "010002"
  | B230400 => oct "010003"
  | B460800 => oct "010004"
  | B500000 => oct "010005"
  | B576000 => oct "010006"
  | B921600 => oct "010007"
  | B1000000 => oct "010010"
  | B1152000 => oct "010011"
  | B1500000 => oct "010012"
  | B2000000 => oct "010013"
  | B2500000 => oct "010014"
  | B3000000 => oct "010015"
  | B3500000 => oct "010016"
  | B4000000 => oct "010017"
  end.

Record SerialOptions : Type := {
  baudrate : Baudrate;
  timeout_in_deciseconds : Z;
  minimum_number_of_chars_read : Z;
  buffer_size : option Z
}.

(** [class SerialPort]: both fields are set by the constructor and never
    assigned afterwards. *)
Record SerialPort : Type := {
  fd : Z;
  options : SerialOptions
}.

(** ** libc behind [Deno.dlopen]

    Each symbol is a function of the world. A pointer argument that libc
    reads is passed as the bytes of the buffer it points to; one that libc
    writes through comes back as the bytes stored. [__errno_location] and
    [strerror] return a pointer that the program reads at once: the model
    gives what is read there, [None] for a null pointer.

    An [i32] result reaches the program as a number. An [isize] result
    (of [read] and [write]) reaches it as a number or as a BigInt:
    [ffi_bigint] tells for which values the runtime hands over a BigInt
    (for none that is a safe integer on the runtimes the source's
    [rlen as number] was written for, for all on later ones). The buffer
    handed to [open] holds the encoded path and nothing after it. *)
Record Libc : Type := {
  world : Type;
  libc_open : list byte -> Z -> world -> Z * world;
  libc_close : Z -> world -> Z * world;
  libc_write : Z -> list byte -> Z -> world -> Z * world;
  libc_read : Z -> Z -> world -> (Z * list byte) * world;
  libc_errno_location : world -> option Z * world;
  libc_strerror : Z -> world -> option jsstring * world;
  libc_tcgetattr : Z -> world -> (Z * list byte) * world;
  libc_tcsetattr : Z -> Z -> list byte -> world -> Z * world;
  libc_cfsetspeed : list byte -> Z -> world -> (Z * list byte) * world;
  (** byte order of the host, seen by typed arrays *)
  native_little_endian : bool;
  (** the [isize] results that arrive as a BigInt *)
  ffi_bigint : Z -> bool
}.

(** What an observer of a run sees: the calls into libc with their
    arguments, and the lines the generator yields. *)
Inductive event : Type :=
| EvOpen (path : list byte) (flags : Z)
| EvClose (fd : Z)
| EvWrite (fd : Z) (data : list byte) (count : Z)
| EvRead (fd : Z) (count : Z)
| EvErrnoLocation
| EvStrerror (errnum : Z)
| EvTcgetattr (fd : Z)
| EvTcsetattr (fd : Z) (action : Z) (tty : list byte)
| EvCfsetspeed (tty : list byte) (speed : Z)
| EvYield (line : jsstring).

Section Program.

Context (L : Libc).

(** An [async] computation: from a world to its completion, the world it
    leaves and the events it produced, in order. *)
Definition M (A : Type) : Type := world L -> completion A * world L * list event.

Definition ret {A : Type} (a : A) : M A := fun w => (Normal a, w, []).

Definition throw {A : Type} (e : exn) : M A := fun w => (Throw e, w, []).

Definition bind {A B : Type} (m : M A) (k : A -> M B) : M B := fun w =>
  match m w with
  | (Normal a, w1, t1) => let '(r, w2, t2) := k a w1 in (r, w2, t1 ++ t2)
  | (Throw e, w1, t1) => (Throw e, w1, t1)
  end.

Definition lift {A : Type} (c : completion A) : M A := fun w => (c, w, []).

(** [await library.symbols.f(...)]: one call, logged. *)
Definition call {A : Type} (ev : event) (f : world L -> A * world L) : M A :=
  fun w => let '(a, w') := f w in (Normal a, w', [ev]).

Definition yield (l : jsstring) : M unit := fun w => (Normal tt, w, [EvYield l]).

Notation "x <- m ;; k" := (bind m (fun x => k))
  (at level 100, m at next level, right associativity).
Notation "m ;;; k" := (bind m (fun _ => k))
  (at level 100, right associativity).

(** [for (const x of xs) body] *)
Fixpoint for_of {A : Type} (xs : list A) (body : A -> M unit) : M unit :=
  match xs with
  | [] => ret tt
  | x :: xs' => body x ;;; for_of xs' body
  end.

(** The [isize] result [z] as the program receives it. *)
Definition isize (z : Z) : integer :=
  if ffi_bigint L z then BigInt z else Number z.

(** *** Rendering the last OS error *)

Definition errno : M Z :=
  r <- call EvErrnoLocation (libc_errno_location L) ;;
  match r with
  | None => ret 0
  | Some v => ret v
  end.

Definition strerror (errnum : Z) : M jsstring :=
  r <- call (EvStrerror errnum) (libc_strerror L errnum) ;;
  match r with
  | None => ret []
  | Some s => ret s
  end.

Definition geterrnoString : M jsstring :=
  e <- errno ;; strerror e.

(** *** [class SerialPort] *)

Definition read (self : SerialPort) : M (list byte) :=
  ibuffer <- lift (new_Uint8Array (default 255 (buffer_size (options self)))) ;;
  r <- call (EvRead (fd self) (Z.of_nat (length ibuffer)))
         (libc_read L (fd self) (Z.of_nat (length ibuffer))) ;;
  let '(n, stored) := r in
  let rlen := isize n in
  let ibuffer := poke ibuffer stored in
  if less_than_zero rlen then
    s <- geterrnoString ;; throw (Error (lit "Error while reading: " ++ s))
  else
    end_ <- lift (ToIntegerOrInfinity rlen) ;;
    ret (subarray ibuffer 0 end_).

Definition read_string (self : SerialPort) : M jsstring :=
  bs <- read self ;; ret (TextDecoder_decode bs).

(** One turn of the [while (true)] loop of [read_line], entered with the
    pending [data]: the lines it yields are events, its result is the
    [data] the next turn starts with. *)
Definition read_line_turn (self : SerialPort) (data : jsstring) : M jsstring :=
  read <- read_string self ;;
  if (length read =? 0)%nat then ret data
  else
    let data := data ++ read in
    let lines := split NL data in
    let '(last, lines) := pop lines in
    let data := default [] last in
    for_of lines yield ;;; ret data.

(** The generator runs forever; [read_line_from n self data] is its
    first [n] turns with every yielded line consumed, [read_line n self]
    starts them as the source does, with the empty string for [data]. *)
Fixpoint read_line_from (n : nat) (self : SerialPort) (data : jsstring) : M jsstring :=
  match n with
  | O => ret data
  | S n' => data' <- read_line_turn self data ;; read_line_from n' self data'
  end.

Definition read_line (n : nat) (self : SerialPort) : M jsstring :=
  read_line_from n self [].

Definition write (self : SerialPort) (data : list byte) : M unit :=
  n <- call (EvWrite (fd self) data (Z.of_nat (length data)))
         (libc_write L (fd self) data (Z.of_nat (length data))) ;;
  let wlen := isize n in
  if less_than_zero wlen then
    s <- geterrnoString ;; throw (Error (lit "Error while writing: " ++ s))
  else if strict_not_equal wlen (Z.of_nat (length data)) then
    throw (Error (lit "Couldn't write data"))
  else ret tt.

Definition write_string (self : SerialPort) (str : jsstring) : M unit :=
  let data := TextEncoder_encode str in
  write self data.

Definition close (self : SerialPort) : M unit :=
  r <- call (EvClose (fd self)) (libc_close L (fd self)) ;;
  if r <? 0 then
    s <- geterrnoString ;; throw (Error (lit "Error while closing: " ++ s))
  else ret tt.

(** [Symbol.asyncDispose] *)
Definition asyncDispose (self : SerialPort) : M unit := close self.

(** *** Opening a port *)

Definition is_platform_little_endian : M bool :=
  buffer <- lift (new_ArrayBuffer 2) ;;
  buffer <- lift (setInt16 buffer 0 256 true) ;;
  ret (bool_decide (Int16Array_get (native_little_endian L) buffer 0 = Some 256)).

Definition open (file : jsstring) (options : SerialOptions) : M SerialPort :=
  let buffer := TextEncoder_encode file in
  let flags := (O_RDWR .| O_NOCTTY .| O_SYNC)%js in
  fd <- call (EvOpen buffer flags) (libc_open L buffer flags) ;;
  if fd <? 0 then
    s <- geterrnoString ;;
    throw (Error (lit "Couldn't open '" ++ file ++ lit "': " ++ s))
  else
  tty <- lift (new_ArrayBuffer 100) ;;
  g <- call (EvTcgetattr fd) (libc_tcgetattr L fd) ;;
  let '(r, stored) := g in
  let tty := poke tty stored in
  if negb (r =? 0) then
    s <- geterrnoString ;; throw (Error (lit "tcgetattr: " ++ s))
  else
  c <- call (EvCfsetspeed tty (Baudrate_value (baudrate options)))
         (libc_cfsetspeed L tty (Baudrate_value (baudrate options))) ;;
  let '(_, stored) := c in
  let tty := poke tty stored in
  littleEndian <- is_platform_little_endian ;;
  tty <- lift (setUint32 tty 0 0 littleEndian) ;;
  tty <- lift (setUint32 tty 4 0 littleEndian) ;;
  cflag <- lift (getUint32 tty 8 littleEndian) ;;
  let cflag := (cflag .& .~ PARENB)%js in
  let cflag := (cflag .& .~ CSTOPB)%js in
  let cflag := (cflag .& .~ CSIZE)%js in
  let cflag := (cflag .| CS8)%js in
  let cflag := (cflag .& .~ CRTSCTS)%js in
  let cflag := (cflag .| (CREAD .| CLOCAL))%js in
  tty <- lift (setUint32 tty 8 cflag littleEndian) ;;
  tty <- lift (setUint32 tty 12 0 littleEndian) ;;
  tty <- lift (setUint8 tty (17 + VTIME) (timeout_in_deciseconds options)) ;;
  tty <- lift (setUint8 tty (17 + VMIN) (minimum_number_of_chars_read options)) ;;
  r <- call (EvTcsetattr fd TCSANOW tty) (libc_tcsetattr L fd TCSANOW tty) ;;
  if negb (r =? 0) then
    s <- geterrnoString ;; throw (Error (lit "tcsetattr: " ++ s))
  else ret {| fd := fd; options := options |}.

End Program.

(** ** Reading a run *)

Section Observations.

Context {W A : Type}.

Definition outcome (r : completion A * W * list event) : completion A := fst (fst r).
Definition after (r : completion A * W * list event) : W := snd (fst r).
Definition log (r : completion A * W * list event) : list event := snd r.

End Observations.

Definition is_normal {A : Type} (c : completion A) : bool :=
  match c with
  | Normal _ => true
  | Throw _ => false
  end.

(** The symbol an event calls. *)
Inductive symbol : Type :=
| sym_open | sym_close | sym_write | sym_read | sym_errno_location
| sym_strerror | sym_tcgetattr | sym_tcsetattr | sym_cfsetspeed | gen_yield.

#[global] Instance symbol_eq_dec : EqDecision symbol.
Proof. solve_decision. Defined.

Definition symbol_of (e : event) : symbol :=
  match e with
  | EvOpen _ _ => sym_open
  | EvClose _ => sym_close
  | EvWrite _ _ _ => sym_write
  | EvRead _ _ => sym_read
  | EvErrnoLocation => sym_errno_location
  | EvStrerror _ => sym_strerror
  | EvTcgetattr _ => sym_tcgetattr
  | EvTcsetattr _ _ _ => sym_tcsetattr
  | EvCfsetspeed _ _ => sym_cfsetspeed
  | EvYield _ => gen_yield
  end.

Definition symbols (t : list event) : list symbol := map symbol_of t.

(** The lines yielded in a log, and the libc calls in it. *)
Definition yields (t : list event) : list jsstring :=
  omap (fun e => match e with EvYield l => Some l | _ => None end) t.

Definition syscalls (t : list event) : list event :=
  filter (fun e => symbol_of e <> gen_yield) t.

(** The termios images handed to [tcsetattr] in a log, and the
    descriptors handed to [close]. *)
Definition committed (t : list event) : list (list byte) :=
  omap (fun e => match e with EvTcsetattr _ _ tty => Some tty | _ => None end) t.

Definition closed (t : list event) : list Z :=
  omap (fun e => match e with EvClose d => Some d | _ => None end) t.

(** [s.startsWith(p)] *)
Fixpoint starts_with (p s : jsstring) : bool :=
  match p, s with
  | [], _ => true
  | c :: p', d :: s' => (c =? d) && starts_with p' s'
  | _ :: _, [] => false
  end.

(** The error kinds of the specification, read off the exception: each
    kind is the message of one [throw] of the source. No [throw] of the
    source stands for [ClosedHandle]. *)
Inductive ErrorKind : Type :=
| OpenFailed | GetAttributesFailed | SetAttributesFailed
| IoError | ShortWrite | CloseError | ClosedHandle.

Definition kind_of (e : exn) : option ErrorKind :=
  match e with
  | Error m =>
      if starts_with (lit "Couldn't open '") m then Some OpenFailed
      else if starts_with (lit "tcgetattr: ") m then Some GetAttributesFailed
      else if starts_with (lit "tcsetattr: ") m then Some SetAttributesFailed
      else if starts_with (lit "Error while reading: ") m then Some IoError
      else if starts_with (lit "Error while writing: ") m then Some IoError
      else if starts_with (lit "Error while closing: ") m then Some CloseError
      else if bool_decide (m = lit "Couldn't write data") then Some ShortWrite
      else None
  | RangeError => None
  | TypeError => None
  end.

Definition raises {A : Type} (k : ErrorKind) (c : completion A) : Prop :=
  exists e, c = Throw e /\ kind_of e = Some k.

(** The text [geterrnoString] renders in a world. *)
Definition errno_string (L : Libc) (w : world L) : jsstring :=
  match outcome (geterrnoString L w) with
  | Normal s => s
  | Throw _ => []
  end.

(** The steps of [open] between [cfsetspeed] and [tcsetattr] in closed
    form: the control flags they compute from the flags read, and the
    image they leave when they start from [tty] on a host of byte order
    [littleEndian]. Lemma [open_run] shows that [open] hands exactly this
    image to [tcsetattr]. *)
Definition cflag_8N1 (cflag : Z) : Z :=
  ((((((cflag .& .~ PARENB) .& .~ CSTOPB) .& .~ CSIZE) .| CS8) .& .~ CRTSCTS)
   .| (CREAD .| CLOCAL))%js.

Definition word (littleEndian : bool) (v : Z) : list byte :=
  ordered littleEndian (le_split 4 (ToUint32 v)).

Definition configured (littleEndian : bool) (o : SerialOptions) (tty : list byte)
  : list byte :=
  let t1 := blit tty 0 (word littleEndian 0) in
  let t2 := blit t1 4 (word littleEndian 0) in
  let cflag := le_combine (ordered littleEndian (slice t2 8 4)) in
  let t3 := blit t2 8 (word littleEndian (cflag_8N1 cflag)) in
  let t4 := blit t3 12 (word littleEndian 0) in
  let t5 := blit t4 22 (le_split 1 (ToUint8 (timeout_in_deciseconds o))) in
  blit t5 23 (le_split 1 (ToUint8 (minimum_number_of_chars_read o))).

(** The libc results that decide [open], stage by stage: each stage is
    taken in the world the previous one left. *)
Section Stages.

Context (L : Libc) (file : jsstring) (o : SerialOptions) (w : world L).

Definition open_flags : Z := (O_RDWR .| O_NOCTTY .| O_SYNC)%js.

Definition stage_open : Z * world L :=
  libc_open L (TextEncoder_encode file) open_flags w.

Definition stage_tcgetattr : (Z * list byte) * world L :=
  libc_tcgetattr L (fst stage_open) (snd stage_open).

(** the buffer after [tcgetattr] *)
Definition tty_read : list byte :=
  poke (replicate 100 x00) (snd (fst stage_tcgetattr)).

Definition stage_cfsetspeed : (Z * list byte) * world L :=
  libc_cfsetspeed L tty_read (Baudrate_value (baudrate o)) (snd stage_tcgetattr).

(** the buffer after [cfsetspeed] *)
Definition tty_speed : list byte :=
  poke tty_read (snd (fst stage_cfsetspeed)).

(** the image handed to [tcsetattr] *)
Definition tty_commit : list byte :=
  configured (native_little_endian L) o tty_speed.

Definition stage_tcsetattr : Z * world L :=
  libc_tcsetattr L (fst stage_open) TCSANOW tty_commit (snd stage_cfsetspeed).

End Stages.

(** The FFI hands the [isize] result [z] over as a number. *)
Definition number_result (L : Libc) (z : Z) : Prop := ffi_bigint L z = false.

(** A length [new Uint8Array] accepts, and the length [read] asks for. *)
Definition valid_length (n : Z) : Prop := 0 <= n <= 2 ^ 53 - 1.

Definition read_size (p : SerialPort) : Z := default 255 (buffer_size (options p)).

(** What the specification asks of a termios image handed to [tcsetattr]:
    raw mode, 8 data bits, no parity, one stop bit, no hardware flow
    control, receiver on, modem lines ignored. *)
Definition raw_8N1 (littleEndian : bool) (tty : list byte) : Prop :=
  getUint32 tty 0 littleEndian = Normal 0 /\
  getUint32 tty 4 littleEndian = Normal 0 /\
  getUint32 tty 12 littleEndian = Normal 0 /\
  exists cflag,
    getUint32 tty 8 littleEndian = Normal cflag /\
    Z.land cflag PARENB = 0 /\
    Z.land cflag CSTOPB = 0 /\
    Z.land cflag CSIZE = CS8 /\
    Z.land cflag CRTSCTS = 0 /\
    Z.land cflag CREAD = CREAD /\
    Z.land cflag CLOCAL = CLOCAL.

(** The specification's rule for a closed port (section 4.4), for one
    port in one world: once [close] has succeeded, [read], [write] and
    [close] fail with [ClosedHandle] and no second close reaches libc. *)
Definition closed_port_rule (L : Libc) (p : SerialPort) (w : world L) : Prop :=
  outcome (close L p w) = Normal tt ->
  let w' := after (close L p w) in
  raises ClosedHandle (outcome (read L p w')) /\
  (forall data, raises ClosedHandle (outcome (write L p data w'))) /\
  raises ClosedHandle (outcome (close L p w')) /\
  closed (log (close L p w')) = [].

(** The specification's rule for a failing [open] (section 4.3): when it
    throws after libc gave a descriptor, that descriptor has been handed
    to [close]. *)
Definition no_leak_rule (L : Libc) (file : jsstring) (o : SerialOptions)
    (w : world L) : Prop :=
  0 <= fst (stage_open L file w) ->
  is_normal (outcome (open L file o w)) = false ->
  fst (stage_open L file w) ∈ closed (log (open L file o w)).

(** The line splitter on its own: what one turn of [read_line] does with
    the chunk it read, and a sequence of turns. The first component is
    the lines yielded, in order, the second the pending segment. *)
Definition feed (data read : jsstring) : list jsstring * jsstring :=
  if (length read =? 0)%nat then ([], data)
  else
    let data := data ++ read in
    let lines := split NL data in
    let '(last, lines) := pop lines in
    (lines, default [] last).

Fixpoint feed_all (data : jsstring) (chunks : list jsstring)
  : list jsstring * jsstring :=
  match chunks with
  | [] => ([], data)
  | c :: chunks' =>
      let '(ls, data') := feed data c in
      let '(ls', data'') := feed_all data' chunks' in
      (ls ++ ls', data'')
  end.

(** [n] calls of [read_string] in a row, and the chunks they return. *)
Fixpoint read_strings (L : Libc) (n : nat) (self : SerialPort)
  : M L (list jsstring) :=
  match n with
  | O => ret L []
  | S n' =>
      bind L (read_string L self) (fun c =>
      bind L (read_strings L n' self) (fun cs => ret L (c :: cs)))
  end.

(** ** A simulated libc

    One serial device behind one path, a descriptor table, and the usual
    error numbers; little-endian, with an FFI that hands over an [isize]
    result as a number when it is a safe integer. It stands in for the
    kernel in the examples. *)
Module Sim.

Record state : Type := {
  fds : list Z;             (* descriptors that are open *)
  err : Z;                  (* errno *)
  termios : list byte;      (* the line's settings *)
  rx : list (list byte);    (* what the coming reads deliver *)
  tx_room : Z;              (* bytes the line takes per write *)
  is_tty : bool;            (* the device has terminal settings *)
  speed_ok : bool;          (* the speed is one the line supports *)
  set_ok : bool             (* the line accepts new settings *)
}.

Definition ENOENT : Z := 2.
Definition EBADF : Z := 9.
Definition EINVAL : Z := 22.
Definition ENOTTY : Z := 25.

Definition device : jsstring := lit "/dev/ttyUSB0".

Definition with_err (e : Z) (s : state) : state :=
  {| fds := fds s; err := e; termios := termios s; rx := rx s;
     tx_room := tx_room s; is_tty := is_tty s; speed_ok := speed_ok s;
     set_ok := set_ok s |}.

Definition with_fds (l : list Z) (s : state) : state :=
  {| fds := l; err := err s; termios := termios s; rx := rx s;
     tx_room := tx_room s; is_tty := is_tty s; speed_ok := speed_ok s;
     set_ok := set_ok s |}.

Definition with_rx (l : list (list byte)) (s : state) : state :=
  {| fds := fds s; err := err s; termios := termios s; rx := l;
     tx_room := tx_room s; is_tty := is_tty s; speed_ok := speed_ok s;
     set_ok := set_ok s |}.

Definition with_termios (t : list byte) (s : state) : state :=
  {| fds := fds s; err := err s; termios := t; rx := rx s;
     tx_room := tx_room s; is_tty := is_tty s; speed_ok := speed_ok s;
     set_ok := set_ok s |}.


Definition with_line (tty speed set : bool) (s : state) : state :=
  {| fds := fds s; err := err s; termios := termios s; rx := rx s;
     tx_room := tx_room s; is_tty := tty; speed_ok := speed; set_ok := set |}.

Definition is_open (d : Z) (s : state) : bool := bool_decide (d ∈ fds s).

(** the lowest descriptor from [from] that is not in use *)
Fixpoint lowest_free (n : nat) (from : Z) (used : list Z) : Z :=
  match n with
  | O => from
  | S n' => if bool_decide (from ∈ used) then lowest_free n' (from + 1) used else from
  end.

Definition open (path : list byte) (flags : Z) (s : state) : Z * state :=
  if bool_decide (path = TextEncoder_encode device) then
    let d := lowest_free (length (fds s)) 3 (fds s) in
    (d, with_fds (d :: fds s) s)
  else (-1, with_err ENOENT s).

Definition close (d : Z) (s : state) : Z * state :=
  if is_open d s then (0, with_fds (filter (fun x => x <> d) (fds s)) s)
  else (-1, with_err EBADF s).

Definition write (d : Z) (data : list byte) (count : Z) (s : state) : Z * state :=
  if is_open d s then (Z.min count (tx_room s), s)
  else (-1, with_err EBADF s).

Definition read (d : Z) (count : Z) (s : state) : (Z * list byte) * state :=
  if is_open d s then
    match rx s with
    | [] => ((0, []), s)
    | chunk :: rest =>
        let got := take (Z.to_nat count) chunk in
        ((Z.of_nat (length got), got), with_rx rest s)
    end
  else ((-1, []), with_err EBADF s).

Definition errno_location (s : state) : option Z * state := (Some (err s), s).

Definition strerror (e : Z) (s : state) : option jsstring * state :=
  (Some (if e =? ENOENT then lit "No such file or directory"
         else if e =? EBADF then lit "Bad file descriptor"
         else if e =? EINVAL then lit "Invalid argument"
         else if e =? ENOTTY then lit "Inappropriate ioctl for device"
         else lit "Unknown error"), s).

Definition tcgetattr (d : Z) (s : state) : (Z * list byte) * state :=
  if is_open d s then
    if is_tty s then ((0, termios s), s) else ((-1, []), with_err ENOTTY s)
  else ((-1, []), with_err EBADF s).

Definition tcsetattr (d : Z) (action : Z) (tty : list byte) (s : state) : Z * state :=
  if is_open d s then
    if is_tty s then
      if set_ok s then (0, with_termios (take 60 tty) s) else (-1, with_err EINVAL s)
    else (-1, with_err ENOTTY s)
  else (-1, with_err EBADF s).

(** stores the speed in the two speed fields of the image *)
Definition cfsetspeed (tty : list byte) (speed : Z) (s : state)
  : (Z * list byte) * state :=
  if speed_ok s
  then ((0, blit (blit (take 60 tty) 52 (le_split 4 speed)) 56 (le_split 4 speed)), s)
  else ((-1, []), with_err EINVAL s).

(** A freshly booted machine: nothing open, a line whose settings have
    every bit set, and [input] waiting on the line. *)
Definition boot (input : list (list byte)) : state :=
  {| fds := []; err := 0; termios := replicate 60 xff; rx := input;
     tx_room := 4096; is_tty := true; speed_ok := true; set_ok := true |}.

End Sim.

Definition sim : Libc :=
  {| world := Sim.state;
     libc_open := Sim.open;
     libc_close := Sim.close;
     libc_write := Sim.write;
     libc_read := Sim.read;
     libc_errno_location := Sim.errno_location;
     libc_strerror := Sim.strerror;
     libc_tcgetattr := Sim.tcgetattr;
     libc_tcsetattr := Sim.tcsetattr;
     libc_cfsetspeed := Sim.cfsetspeed;
     native_little_endian := true;
     ffi_bigint := fun z => 2 ^ 53 - 1 <? Z.abs z |}.

(** The same machine under a runtime whose FFI hands over every [isize]
    result as a BigInt. *)
Definition sim_bigint : Libc :=
  {| world := Sim.state;
     libc_open := Sim.open;
     libc_close := Sim.close;
     libc_write := Sim.write;
     libc_read := Sim.read;
     libc_errno_location := Sim.errno_location;
     libc_strerror := Sim.strerror;
     libc_tcgetattr := Sim.tcgetattr;
     libc_tcsetattr := Sim.tcsetattr;
     libc_cfsetspeed := Sim.cfsetspeed;
     native_little_endian := true;
     ffi_bigint := fun _ => true |}.

(** The options of the demonstration at the end of the source. *)
Definition demo_options : SerialOptions :=
  {| baudrate := B115200;
     minimum_number_of_chars_read := 0;
     timeout_in_deciseconds := 10;
     buffer_size := None |}.

(** The port [open] returns for the demonstration on a booted machine,
    and the machine once it is open, with [input] waiting on the line. *)
Definition demo_port : SerialPort := {| fd := 3; options := demo_options |}.

Definition demo_world (input : list (list byte)) : Sim.state :=
  after (open sim Sim.device demo_options (Sim.boot input)).

(** The bytes of an ASCII text. *)
Definition ascii_bytes (s : string) : list byte :=
  map byte_of_ascii (list_ascii_of_string s).

(** The four raw reads of the specification's example:
    ["AB"], ["C\n"], ["DE\n"], ["F"]. *)
Definition four_reads : list (list byte) :=
  [ascii_bytes "AB"; ascii_bytes "C" ++ [x0a]; ascii_bytes "DE" ++ [x0a];
   ascii_bytes "F"].

(** ** Vocabulary for the properties of the remaining code *)

(** Text and bytes in the ASCII range. *)
Definition ascii_text (s : jsstring) : Prop := Forall (fun c => 0 <= c < 128) s.

Definition ascii_data (bs : list byte) : Prop := Forall (fun b => byte_to_Z b < 128) bs.

(** In world [w] libc's [read], called as [read] of port [p] calls it,
    stores the bytes [bs], reports their number and leaves world [w']. *)
Definition delivers (L : Libc) (p : SerialPort) (w : world L) (bs : list byte)
    (w' : world L) : Prop :=
  libc_read L (fd p) (read_size p) w = ((Z.of_nat (length bs), bs), w').

(** The number of newlines in a text. *)
Definition newlines (s : jsstring) : nat := length (filter (fun c => c = NL) s).

(** The bits of the control flags that [open] clears or sets: CSIZE
    (4, 5), CSTOPB (6), CREAD (7), PARENB (8), CLOCAL (11), CRTSCTS (31). *)
Definition edited_bits : list Z := [4; 5; 6; 7; 8; 11; 31].

(** What a call in the log of [open file o] may be, when libc's [open]
    returned [d]: the four calls with these arguments, and the two of the
    errno rendering. *)
Definition open_call (file : jsstring) (o : SerialOptions) (d : Z) (e : event) : Prop :=
  match e with
  | EvOpen path flags => path = TextEncoder_encode file /\ flags = 0x101102
  | EvTcgetattr d' => d' = d
  | EvCfsetspeed _ speed => speed = Baudrate_value (baudrate o)
  | EvTcsetattr d' action _ => d' = d /\ action = 0
  | EvErrnoLocation => True
  | EvStrerror _ => True
  | EvClose _ => False
  | EvWrite _ _ _ => False
  | EvRead _ _ => False
  | EvYield _ => False
  end.

(** What an event in the log of the line generator of port [p] may be. *)
Definition read_line_event (p : SerialPort) (e : event) : Prop :=
  match e with
  | EvRead d count => d = fd p /\ count = read_size p
  | EvErrnoLocation => True
  | EvStrerror _ => True
  | EvYield _ => True
  | EvOpen _ _ => False
  | EvClose _ => False
  | EvWrite _ _ _ => False
  | EvTcgetattr _ => False
  | EvTcsetattr _ _ _ => False
  | EvCfsetspeed _ _ => False
  end.

(** Splits a conjunction, and only a conjunction. *)
Ltac split_ands := repeat match goal with |- _ /\ _ => split end.

(** * Properties *)

(** ** Bytes and integers *)

Lemma byte_to_Z_range (b : byte) : 0 <= byte_to_Z b < 256.
Proof.
  unfold byte_to_Z. pose proof (Byte.to_N_bounded b). lia.
Qed.

Lemma byte_to_of_Z (z : Z) : byte_to_Z (byte_of_Z z) = z mod 256.
Proof.
  unfold byte_to_Z, byte_of_Z.
  pose proof (Z.mod_pos_bound z 256 ltac:(lia)) as Hr.
  destruct (Byte.of_N (Z.to_N (z mod 256))) as [b|] eqn:E.
  - apply Byte.to_of_N in E. rewrite E. lia.
  - apply Byte.of_N_None_iff in E. lia.
Qed.

Lemma byte_of_to_Z (b : byte) : byte_of_Z (byte_to_Z b) = b.
Proof.
  unfold byte_of_Z. pose proof (byte_to_Z_range b) as Hr.
  rewrite Z.mod_small by lia. unfold byte_to_Z.
  rewrite N2Z.id, Byte.of_to_N. reflexivity.
Qed.

Lemma length_le_split (n : nat) (v : Z) : length (le_split n v) = n.
Proof.
  revert v. induction n as [|n IH]; intros v; simpl; [reflexivity|].
  now rewrite IH.
Qed.

Lemma le_combine_le_split (n : nat) (v : Z) :
  le_combine (le_split n v) = v mod 256 ^ Z.of_nat n.
Proof.
  revert v. induction n as [|n IH]; intros v.
  - simpl. now rewrite Z.mod_1_r.
  - cbn [le_split le_combine]. rewrite byte_to_of_Z, IH.
    rewrite Nat2Z.inj_succ, Z.pow_succ_r by lia.
    rewrite Z.rem_mul_r by lia. reflexivity.
Qed.

Lemma ordered_involutive (le : bool) (bs : list byte) :
  ordered le (ordered le bs) = bs.
Proof. destruct le; simpl; [reflexivity | apply reverse_involutive]. Qed.

Lemma length_ordered (le : bool) (bs : list byte) :
  length (ordered le bs) = length bs.
Proof. destruct le; simpl; [reflexivity | apply length_reverse]. Qed.

(** ** Buffers *)

Lemma length_blit (buf : list byte) (off : nat) (bs : list byte) :
  (off + length bs <= length buf)%nat ->
  length (blit buf off bs) = length buf.
Proof.
  intros H. unfold blit. rewrite !length_app, length_take, length_drop. lia.
Qed.

Lemma length_poke (buf stored : list byte) : length (poke buf stored) = length buf.
Proof.
  unfold poke. rewrite length_take, length_app, length_drop. lia.
Qed.

Lemma slice_blit_same (buf : list byte) (off : nat) (bs : list byte) :
  (off + length bs <= length buf)%nat ->
  slice (blit buf off bs) off (length bs) = bs.
Proof.
  intros H. unfold slice, blit.
  rewrite drop_app_length' by (rewrite length_take; lia).
  now rewrite take_app_length.
Qed.

Lemma slice_blit_before (buf : list byte) (off : nat) (bs : list byte) (off' n : nat) :
  (off + length bs <= length buf)%nat ->
  (off' + n <= off)%nat ->
  slice (blit buf off bs) off' n = slice buf off' n.
Proof.
  intros H H'. unfold slice, blit.
  rewrite drop_app_le by (rewrite length_take; lia).
  rewrite take_app_le by (rewrite length_drop, length_take; lia).
  rewrite !take_drop_commute, take_take, Nat.min_l by lia. reflexivity.
Qed.

Lemma slice_blit_after (buf : list byte) (off : nat) (bs : list byte) (off' n : nat) :
  (off + length bs <= length buf)%nat ->
  (off + length bs <= off')%nat ->
  slice (blit buf off bs) off' n = slice buf off' n.
Proof.
  intros H H'. unfold slice, blit. rewrite app_assoc.
  rewrite drop_app_ge by (rewrite length_app, length_take; lia).
  rewrite length_app, length_take, drop_drop. do 2 f_equal. lia.
Qed.

Lemma slice_poke_zero (n : nat) (stored : list byte) :
  (length stored <= n)%nat ->
  take (length stored) (poke (replicate n x00) stored) = stored.
Proof.
  intros H. unfold poke. rewrite length_replicate.
  rewrite take_take, Nat.min_l by lia. now rewrite take_app_length.
Qed.

(** ** [DataView] *)

Lemma in_view_true (buf : list byte) (off : Z) (n : nat) :
  0 <= off -> off + Z.of_nat n <= Z.of_nat (length buf) ->
  in_view buf off n = true.
Proof.
  intros H1 H2. unfold in_view.
  apply andb_true_intro. split; apply Z.leb_le; lia.
Qed.

Lemma setUint32_normal (buf : list byte) (off v : Z) (le : bool) :
  0 <= off -> off + 4 <= Z.of_nat (length buf) ->
  setUint32 buf off v le = Normal (blit buf (Z.to_nat off) (word le v)).
Proof.
  intros H1 H2. unfold setUint32. now rewrite in_view_true by (simpl; lia).
Qed.

Lemma getUint32_normal (buf : list byte) (off : Z) (le : bool) :
  0 <= off -> off + 4 <= Z.of_nat (length buf) ->
  getUint32 buf off le = Normal (le_combine (ordered le (slice buf (Z.to_nat off) 4))).
Proof.
  intros H1 H2. unfold getUint32. now rewrite in_view_true by (simpl; lia).
Qed.

Lemma setUint8_normal (buf : list byte) (off v : Z) :
  0 <= off -> off + 1 <= Z.of_nat (length buf) ->
  setUint8 buf off v = Normal (blit buf (Z.to_nat off) (le_split 1 (ToUint8 v))).
Proof.
  intros H1 H2. unfold setUint8. now rewrite in_view_true by (simpl; lia).
Qed.

Lemma getUint8_normal (buf : list byte) (off : Z) :
  0 <= off -> off + 1 <= Z.of_nat (length buf) ->
  getUint8 buf off = Normal (le_combine (slice buf (Z.to_nat off) 1)).
Proof.
  intros H1 H2. unfold getUint8. now rewrite in_view_true by (simpl; lia).
Qed.

Lemma length_word (le : bool) (v : Z) : length (word le v) = 4%nat.
Proof. unfold word. now rewrite length_ordered, length_le_split. Qed.

Lemma le_combine_word (le : bool) (v : Z) :
  le_combine (ordered le (word le v)) = ToUint32 v.
Proof.
  unfold word. rewrite ordered_involutive, le_combine_le_split.
  unfold ToUint32. change (256 ^ Z.of_nat 4) with (2 ^ 32).
  apply Z.mod_mod. lia.
Qed.

(** ** The control flags *)

Lemma ToInt32_mod (z : Z) : ToInt32 z mod 2 ^ 32 = z mod 2 ^ 32.
Proof.
  unfold ToInt32.
  rewrite Zminus_mod_idemp_l.
  replace (z + 2 ^ 31 - 2 ^ 31) with z by lia. reflexivity.
Qed.

Lemma testbit_ToInt32 (z n : Z) :
  0 <= n < 32 -> Z.testbit (ToInt32 z) n = Z.testbit z n.
Proof.
  intros H.
  rewrite <- (Z.mod_pow2_bits_low (ToInt32 z) 32 n) by lia.
  rewrite ToInt32_mod. apply Z.mod_pow2_bits_low. lia.
Qed.

Lemma land_pow2 (v k : Z) :
  0 <= k -> Z.land v (2 ^ k) = if Z.testbit v k then 2 ^ k else 0.
Proof.
  intros Hk. apply Z.bits_inj'. intros n Hn.
  rewrite Z.land_spec, Z.pow2_bits_eqb by lia.
  destruct (Z.eqb_spec k n) as [->|Hne].
  - destruct (Z.testbit v n); simpl.
    + now rewrite Z.pow2_bits_true.
    + now rewrite Z.bits_0.
  - rewrite andb_false_r. destruct (Z.testbit v k).
    + rewrite Z.pow2_bits_false by lia. reflexivity.
    + now rewrite Z.bits_0.
Qed.

Lemma cflag_8N1_bits (c : Z) :
  let v := ToUint32 (cflag_8N1 c) in
  Z.testbit v 4 = true /\ Z.testbit v 5 = true /\ Z.testbit v 6 = false /\
  Z.testbit v 7 = true /\ Z.testbit v 8 = false /\ Z.testbit v 11 = true /\
  Z.testbit v 31 = false.
Proof.
  cbv zeta.
  unfold cflag_8N1, ToUint32, js_and, js_or, js_not.
  repeat apply conj;
    rewrite Z.mod_pow2_bits_low by lia;
    repeat first
      [ rewrite Z.lor_spec | rewrite Z.land_spec | rewrite Z.lnot_spec by lia
      | rewrite testbit_ToInt32 by lia ].
  all: try match goal with
           | |- context [Z.testbit ?x ?n] => is_var x; destruct (Z.testbit x n)
           end.
  all: vm_compute; reflexivity.
Qed.

(** ** Running the program *)

Lemma geterrnoString_normal (L : Libc) (w : world L) :
  outcome (geterrnoString L w) = Normal (errno_string L w).
Proof.
  unfold errno_string, geterrnoString, errno, strerror, bind, call, ret, outcome.
  destruct (libc_errno_location L w) as [[e|] w1]; simpl;
    destruct (libc_strerror L _ w1) as [[s|] w2]; reflexivity.
Qed.

Lemma geterrnoString_symbols (L : Libc) (w : world L) :
  symbols (log (geterrnoString L w)) = [sym_errno_location; sym_strerror].
Proof.
  unfold geterrnoString, errno, strerror, bind, call, ret, log.
  destruct (libc_errno_location L w) as [[e|] w1]; simpl;
    destruct (libc_strerror L _ w1) as [[s|] w2]; reflexivity.
Qed.

Lemma throw_errno (L : Libc) (A : Type) (msg : jsstring -> jsstring) (w : world L) :
  bind L (geterrnoString L) (fun s => throw L (A := A) (Error (msg s))) w =
  (Throw (Error (msg (errno_string L w))),
   after (geterrnoString L w), log (geterrnoString L w)).
Proof.
  pose proof (geterrnoString_normal L w) as H.
  unfold bind, throw, outcome, after, log in *.
  destruct (geterrnoString L w) as [[c w1] t]. simpl in *. subst c.
  now rewrite app_nil_r.
Qed.

Lemma close_run (L : Libc) (p : SerialPort) (w : world L) :
  close L p w =
  let r := libc_close L (fd p) w in
  if fst r <? 0 then
    (Throw (Error (lit "Error while closing: " ++ errno_string L (snd r))),
     after (geterrnoString L (snd r)),
     EvClose (fd p) :: log (geterrnoString L (snd r)))
  else (Normal tt, snd r, [EvClose (fd p)]).
Proof.
  unfold close. unfold bind at 1. unfold call.
  destruct (libc_close L (fd p) w) as [r w1]. cbn [fst snd].
  destruct (r <? 0).
  - now rewrite throw_errno.
  - reflexivity.
Qed.

Lemma write_run (L : Libc) (p : SerialPort) (data : list byte) (w : world L) :
  write L p data w =
  let len := Z.of_nat (length data) in
  let r := libc_write L (fd p) data len w in
  if fst r <? 0 then
    (Throw (Error (lit "Error while writing: " ++ errno_string L (snd r))),
     after (geterrnoString L (snd r)),
     EvWrite (fd p) data len :: log (geterrnoString L (snd r)))
  else if ffi_bigint L (fst r) || negb (fst r =? len) then
    (Throw (Error (lit "Couldn't write data")), snd r, [EvWrite (fd p) data len])
  else (Normal tt, snd r, [EvWrite (fd p) data len]).
Proof.
  unfold write. unfold bind at 1. unfold call. cbv zeta.
  destruct (libc_write L (fd p) data _ w) as [r w1]. cbn [fst snd].
  unfold isize, less_than_zero.
  destruct (ffi_bigint L r); cbn [integer_value strict_not_equal orb];
    destruct (r <? 0).
  - now rewrite throw_errno.
  - reflexivity.
  - now rewrite throw_errno.
  - destruct (negb _); reflexivity.
Qed.

Lemma new_Uint8Array_normal (n : Z) :
  valid_length n -> new_Uint8Array n = Normal (replicate (Z.to_nat n) x00).
Proof.
  intros [H1 H2]. unfold new_Uint8Array.
  destruct (Z.ltb_spec n 0); [lia|].
  destruct (Z.ltb_spec (2 ^ 53 - 1) n); [lia|]. reflexivity.
Qed.

Lemma new_Uint8Array_throw (n : Z) :
  ~ valid_length n -> new_Uint8Array n = Throw RangeError.
Proof.
  intros H. unfold new_Uint8Array, valid_length in *.
  destruct (Z.ltb_spec n 0); [reflexivity|].
  destruct (Z.ltb_spec (2 ^ 53 - 1) n); [reflexivity|]. lia.
Qed.

Lemma read_run (L : Libc) (p : SerialPort) (w : world L) :
  valid_length (read_size p) ->
  read L p w =
  let n := read_size p in
  let r := libc_read L (fd p) n w in
  let rlen := fst (fst r) in
  let ibuffer := poke (replicate (Z.to_nat n) x00) (snd (fst r)) in
  if rlen <? 0 then
    (Throw (Error (lit "Error while reading: " ++ errno_string L (snd r))),
     after (geterrnoString L (snd r)),
     EvRead (fd p) n :: log (geterrnoString L (snd r)))
  else if ffi_bigint L rlen then (Throw TypeError, snd r, [EvRead (fd p) n])
  else (Normal (subarray ibuffer 0 rlen), snd r, [EvRead (fd p) n]).
Proof.
  intros Hn. unfold read. fold (read_size p).
  rewrite new_Uint8Array_normal by assumption.
  unfold bind at 1. unfold lift at 1. unfold bind at 1. unfold call.
  rewrite length_replicate, Z2Nat.id by apply Hn. cbv zeta.
  destruct (libc_read L (fd p) (read_size p) w) as [[rlen stored] w1].
  cbn [fst snd]. unfold isize, less_than_zero.
  destruct (ffi_bigint L rlen); cbn [integer_value ToIntegerOrInfinity];
    destruct (rlen <? 0).
  - now rewrite throw_errno.
  - reflexivity.
  - now rewrite throw_errno.
  - reflexivity.
Qed.

Lemma read_invalid (L : Libc) (p : SerialPort) (w : world L) :
  ~ valid_length (read_size p) -> read L p w = (Throw RangeError, w, []).
Proof.
  intros Hn. unfold read. fold (read_size p).
  rewrite new_Uint8Array_throw by assumption. reflexivity.
Qed.

Lemma is_platform_little_endian_run (L : Libc) (w : world L) :
  is_platform_little_endian L w = (Normal (native_little_endian L), w, []).
Proof.
  unfold is_platform_little_endian, bind, lift, ret.
  destruct (native_little_endian L); reflexivity.
Qed.

Lemma length_tty_read (L : Libc) (file : jsstring) (w : world L) :
  length (tty_read L file w) = 100%nat.
Proof. unfold tty_read. now rewrite length_poke, length_replicate. Qed.

Lemma length_tty_speed (L : Libc) (file : jsstring) (o : SerialOptions) (w : world L) :
  length (tty_speed L file o w) = 100%nat.
Proof. unfold tty_speed. now rewrite length_poke, length_tty_read. Qed.

(** [open] in closed form, from the results of its libc calls. *)
Lemma open_run (L : Libc) (file : jsstring) (o : SerialOptions) (w : world L) :
  open L file o w =
  let d := fst (stage_open L file w) in
  let w1 := snd (stage_open L file w) in
  let w2 := snd (stage_tcgetattr L file w) in
  let w4 := snd (stage_tcsetattr L file o w) in
  let steps :=
    [EvOpen (TextEncoder_encode file) open_flags;
     EvTcgetattr d;
     EvCfsetspeed (tty_read L file w) (Baudrate_value (baudrate o));
     EvTcsetattr d TCSANOW (tty_commit L file o w)] in
  if d <? 0 then
    (Throw (Error (lit "Couldn't open '" ++ file ++ lit "': " ++ errno_string L w1)),
     after (geterrnoString L w1),
     take 1 steps ++ log (geterrnoString L w1))
  else if negb (fst (fst (stage_tcgetattr L file w)) =? 0) then
    (Throw (Error (lit "tcgetattr: " ++ errno_string L w2)),
     after (geterrnoString L w2),
     take 2 steps ++ log (geterrnoString L w2))
  else if negb (fst (stage_tcsetattr L file o w) =? 0) then
    (Throw (Error (lit "tcsetattr: " ++ errno_string L w4)),
     after (geterrnoString L w4),
     steps ++ log (geterrnoString L w4))
  else (Normal {| fd := d; options := o |}, w4, steps).
Proof.
  cbv zeta.
  unfold stage_tcsetattr, tty_commit.
  pose proof (length_tty_speed L file o w) as Hlen.
  unfold tty_speed, stage_cfsetspeed in *.
  pose proof (length_tty_read L file w) as Hlen0.
  unfold tty_read, stage_tcgetattr in *.
  unfold stage_open in *.
  unfold open. fold open_flags.
  unfold bind at 1. unfold call at 1.
  destruct (libc_open L (TextEncoder_encode file) open_flags w) as [d w1].
  cbn [fst snd] in *.
  destruct (d <? 0).
  { rewrite throw_errno. reflexivity. }
  unfold bind at 1. unfold lift at 1.
  change (new_ArrayBuffer 100) with (Normal (replicate 100 x00)).
  cbv iota beta.
  unfold bind at 1. unfold call at 1.
  destruct (libc_tcgetattr L d w1) as [[r stored] w2].
  cbn [fst snd] in *.
  destruct (negb (r =? 0)).
  { rewrite throw_errno. reflexivity. }
  set (tty1 := poke (replicate 100 x00) stored) in *.
  unfold bind at 1. unfold call at 1.
  destruct (libc_cfsetspeed L tty1 (Baudrate_value (baudrate o)) w2)
    as [[rc stored'] w3].
  cbn [fst snd] in *.
  set (tty2 := poke tty1 stored') in *.
  unfold bind at 1. rewrite is_platform_little_endian_run.
  set (le := native_little_endian L).
  unfold configured, cflag_8N1.
  set (t1 := blit tty2 0 (word le 0)).
  assert (Ht1 : length t1 = 100%nat)
    by (unfold t1; rewrite length_blit; rewrite ?length_word; lia).
  set (t2 := blit t1 4 (word le 0)).
  assert (Ht2 : length t2 = 100%nat)
    by (unfold t2; rewrite length_blit; rewrite ?length_word; lia).
  set (c := le_combine (ordered le (slice t2 8 4))).
  set (t3 := blit t2 8 (word le _)).
  assert (Ht3 : length t3 = 100%nat)
    by (unfold t3; rewrite length_blit; rewrite ?length_word; lia).
  set (t4 := blit t3 12 (word le 0)).
  assert (Ht4 : length t4 = 100%nat)
    by (unfold t4; rewrite length_blit; rewrite ?length_word; lia).
  set (t5 := blit t4 22 (le_split 1 (ToUint8 (timeout_in_deciseconds o)))).
  assert (Ht5 : length t5 = 100%nat)
    by (unfold t5; rewrite length_blit; rewrite ?length_le_split; lia).
  unfold bind at 1. unfold lift at 1.
  rewrite (setUint32_normal tty2 0 0 le) by lia.
  change (Z.to_nat 0) with 0%nat. fold t1. cbv iota beta.
  unfold bind at 1. unfold lift at 1.
  rewrite (setUint32_normal t1 4 0 le) by lia.
  change (Z.to_nat 4) with 4%nat. fold t2. cbv iota beta.
  unfold bind at 1. unfold lift at 1.
  rewrite (getUint32_normal t2 8 le) by lia.
  change (Z.to_nat 8) with 8%nat. fold c. cbv iota beta zeta.
  unfold bind at 1. unfold lift at 1.
  rewrite (setUint32_normal t2 8 _ le) by lia.
  change (Z.to_nat 8) with 8%nat. fold t3. cbv iota beta.
  unfold bind at 1. unfold lift at 1.
  rewrite (setUint32_normal t3 12 0 le) by lia.
  change (Z.to_nat 12) with 12%nat. fold t4. cbv iota beta.
  unfold bind at 1. unfold lift at 1.
  rewrite (setUint8_normal t4 (17 + VTIME)) by (unfold VTIME; lia).
  change (Z.to_nat (17 + VTIME)) with 22%nat. fold t5. cbv iota beta.
  unfold bind at 1. unfold lift at 1.
  rewrite (setUint8_normal t5 (17 + VMIN)) by (unfold VMIN; lia).
  change (Z.to_nat (17 + VMIN)) with 23%nat. cbv iota beta.
  unfold bind at 1. unfold call at 1.
  destruct (libc_tcsetattr L d TCSANOW _ w3) as [rs w4].
  cbn [fst snd].
  destruct (negb (rs =? 0)).
  - rewrite throw_errno. reflexivity.
  - reflexivity.
Qed.

(** ** The image [open] builds *)

Section Configured.

Context (le : bool) (o : SerialOptions) (tty : list byte).
Hypothesis Htty : length tty = 100%nat.

Let t1 := blit tty 0 (word le 0).
Let t2 := blit t1 4 (word le 0).
Let c := le_combine (ordered le (slice t2 8 4)).
Let t3 := blit t2 8 (word le (cflag_8N1 c)).
Let t4 := blit t3 12 (word le 0).
Let t5 := blit t4 22 (le_split 1 (ToUint8 (timeout_in_deciseconds o))).
Let t6 := blit t5 23 (le_split 1 (ToUint8 (minimum_number_of_chars_read o))).

Local Lemma configured_unfold : configured le o tty = t6.
Proof. reflexivity. Qed.

Local Lemma len1 : length t1 = 100%nat.
Proof. unfold t1. rewrite length_blit; rewrite ?length_word; lia. Qed.
Local Lemma len2 : length t2 = 100%nat.
Proof. unfold t2. pose proof len1. rewrite length_blit; rewrite ?length_word; lia. Qed.
Local Lemma len3 : length t3 = 100%nat.
Proof. unfold t3. pose proof len2. rewrite length_blit; rewrite ?length_word; lia. Qed.
Local Lemma len4 : length t4 = 100%nat.
Proof. unfold t4. pose proof len3. rewrite length_blit; rewrite ?length_word; lia. Qed.
Local Lemma len5 : length t5 = 100%nat.
Proof. unfold t5. pose proof len4. rewrite length_blit; rewrite ?length_le_split; lia. Qed.
Local Lemma len6 : length t6 = 100%nat.
Proof. unfold t6. pose proof len5. rewrite length_blit; rewrite ?length_le_split; lia. Qed.

Lemma length_configured : length (configured le o tty) = 100%nat.
Proof. rewrite configured_unfold. apply len6. Qed.

(** What is left at an offset by the later steps. *)
Local Lemma slice_t6_t5 (off n : nat) :
  (off + n <= 23)%nat -> slice t6 off n = slice t5 off n.
Proof.
  intros H. pose proof len5. unfold t6.
  apply slice_blit_before; rewrite ?length_le_split; lia.
Qed.

Local Lemma slice_t5_t4 (off n : nat) :
  (off + n <= 22)%nat -> slice t5 off n = slice t4 off n.
Proof.
  intros H. pose proof len4. unfold t5.
  apply slice_blit_before; rewrite ?length_le_split; lia.
Qed.

Local Lemma slice_t4_t3 (off n : nat) :
  (off + n <= 12)%nat -> slice t4 off n = slice t3 off n.
Proof.
  intros H. pose proof len3. unfold t4.
  apply slice_blit_before; rewrite ?length_word; lia.
Qed.

Local Lemma slice_t3_t2 (off n : nat) :
  (off + n <= 8)%nat -> slice t3 off n = slice t2 off n.
Proof.
  intros H. pose proof len2. unfold t3.
  apply slice_blit_before; rewrite ?length_word; lia.
Qed.

Local Lemma slice_t2_t1 (off n : nat) :
  (off + n <= 4)%nat -> slice t2 off n = slice t1 off n.
Proof.
  intros H. pose proof len1. unfold t2.
  apply slice_blit_before; rewrite ?length_word; lia.
Qed.

Local Lemma word_at (buf : list byte) (off : nat) (v : Z) :
  (off + 4 <= length buf)%nat ->
  slice (blit buf off (word le v)) off 4 = word le v.
Proof.
  intros H. pose proof (slice_blit_same buf off (word le v)) as E.
  rewrite length_word in E. apply E. lia.
Qed.

Local Lemma byte_at (buf : list byte) (off : nat) (v : Z) :
  (off + 1 <= length buf)%nat ->
  le_combine (slice (blit buf off (le_split 1 (ToUint8 v))) off 1) = v mod 256.
Proof.
  intros H.
  pose proof (slice_blit_same buf off (le_split 1 (ToUint8 v))) as E.
  rewrite length_le_split in E. rewrite E by lia.
  rewrite le_combine_le_split. unfold ToUint8.
  change (256 ^ Z.of_nat 1) with 256. change (2 ^ 8) with 256.
  apply Z.mod_mod. lia.
Qed.

Lemma configured_iflag : getUint32 (configured le o tty) 0 le = Normal 0.
Proof.
  rewrite configured_unfold. pose proof len6.
  rewrite getUint32_normal by lia. change (Z.to_nat 0) with 0%nat.
  rewrite slice_t6_t5, slice_t5_t4, slice_t4_t3, slice_t3_t2, slice_t2_t1 by lia.
  unfold t1. rewrite word_at by lia. now rewrite le_combine_word.
Qed.

Lemma configured_oflag : getUint32 (configured le o tty) 4 le = Normal 0.
Proof.
  rewrite configured_unfold. pose proof len6. pose proof len1.
  rewrite getUint32_normal by lia. change (Z.to_nat 4) with 4%nat.
  rewrite slice_t6_t5, slice_t5_t4, slice_t4_t3, slice_t3_t2 by lia.
  unfold t2. rewrite word_at by lia. now rewrite le_combine_word.
Qed.

Lemma configured_cflag :
  getUint32 (configured le o tty) 8 le = Normal (ToUint32 (cflag_8N1 c)).
Proof.
  rewrite configured_unfold. pose proof len6. pose proof len2.
  rewrite getUint32_normal by lia. change (Z.to_nat 8) with 8%nat.
  rewrite slice_t6_t5, slice_t5_t4, slice_t4_t3 by lia.
  unfold t3. rewrite word_at by lia. now rewrite le_combine_word.
Qed.

Lemma configured_lflag : getUint32 (configured le o tty) 12 le = Normal 0.
Proof.
  rewrite configured_unfold. pose proof len6. pose proof len3.
  rewrite getUint32_normal by lia. change (Z.to_nat 12) with 12%nat.
  rewrite slice_t6_t5, slice_t5_t4 by lia.
  unfold t4. rewrite word_at by lia. now rewrite le_combine_word.
Qed.

Lemma configured_vtime :
  getUint8 (configured le o tty) (17 + VTIME)
  = Normal (timeout_in_deciseconds o mod 256).
Proof.
  rewrite configured_unfold. pose proof len6. pose proof len4.
  rewrite getUint8_normal by (unfold VTIME; lia).
  change (Z.to_nat (17 + VTIME)) with 22%nat.
  rewrite slice_t6_t5 by lia.
  unfold t5. now rewrite byte_at by lia.
Qed.

Lemma configured_vmin :
  getUint8 (configured le o tty) (17 + VMIN)
  = Normal (minimum_number_of_chars_read o mod 256).
Proof.
  rewrite configured_unfold. pose proof len6. pose proof len5.
  rewrite getUint8_normal by (unfold VMIN; lia).
  change (Z.to_nat (17 + VMIN)) with 23%nat.
  unfold t6. now rewrite byte_at by lia.
Qed.

Lemma configured_raw_8N1 : raw_8N1 le (configured le o tty).
Proof.
  unfold raw_8N1.
  split; [apply configured_iflag|].
  split; [apply configured_oflag|].
  split; [apply configured_lflag|].
  exists (ToUint32 (cflag_8N1 c)).
  split; [apply configured_cflag|].
  destruct (cflag_8N1_bits c) as (b4 & b5 & b6 & b7 & b8 & b11 & b31).
  cbv zeta in *.
  change PARENB with (2 ^ 8). change CSTOPB with (2 ^ 6).
  change CSIZE with (Z.lor (2 ^ 4) (2 ^ 5)). change CS8 with (Z.lor (2 ^ 4) (2 ^ 5)).
  change CRTSCTS with (2 ^ 31). change CREAD with (2 ^ 7).
  change CLOCAL with (2 ^ 11).
  rewrite Z.land_lor_distr_r, !land_pow2 by lia.
  rewrite b4, b5, b6, b7, b8, b11, b31. repeat split; reflexivity.
Qed.

End Configured.

(** ** Logs and error kinds *)

Lemma geterrnoString_log (L : Libc) (w : world L) :
  exists n, log (geterrnoString L w) = [EvErrnoLocation; EvStrerror n].
Proof.
  unfold geterrnoString, errno, strerror, bind, call, ret, log.
  destruct (libc_errno_location L w) as [[e|] w1]; simpl;
    destruct (libc_strerror L _ w1) as [[s|] w2]; eexists; reflexivity.
Qed.

Lemma starts_with_app (p s : jsstring) : starts_with p (p ++ s) = true.
Proof.
  induction p as [|c p IH]; simpl; [reflexivity|].
  now rewrite Z.eqb_refl, IH.
Qed.

Lemma kind_of_open (file s : jsstring) :
  kind_of (Error (lit "Couldn't open '" ++ file ++ lit "': " ++ s)) = Some OpenFailed.
Proof. unfold kind_of. now rewrite starts_with_app. Qed.

Lemma kind_of_tcgetattr (s : jsstring) :
  kind_of (Error (lit "tcgetattr: " ++ s)) = Some GetAttributesFailed.
Proof. reflexivity. Qed.

Lemma kind_of_tcsetattr (s : jsstring) :
  kind_of (Error (lit "tcsetattr: " ++ s)) = Some SetAttributesFailed.
Proof. reflexivity. Qed.



Lemma kind_of_closing (s : jsstring) :
  kind_of (Error (lit "Error while closing: " ++ s)) = Some CloseError.
Proof. reflexivity. Qed.


Lemma kind_of_not_closed_handle (e : exn) : kind_of e <> Some ClosedHandle.
Proof.
  destruct e as [m| |]; simpl; [|discriminate|discriminate].
  repeat match goal with
         | |- (if ?b then _ else _) <> _ => destruct b; [discriminate|]
         end.
  discriminate.
Qed.

Lemma raises_Throw {A : Type} (k : ErrorKind) (e : exn) :
  raises (A := A) k (Throw e) <-> kind_of e = Some k.
Proof.
  unfold raises. split.
  - intros (e' & [= <-] & H). exact H.
  - intros H. exists e. auto.
Qed.

Lemma raises_Normal {A : Type} (k : ErrorKind) (a : A) : ~ raises k (Normal a).
Proof. intros (e & H & _). discriminate. Qed.

(** ** Splitting into lines *)

Lemma split_snoc (sep : Z) (s : jsstring) :
  exists init lst,
    split sep s = init ++ [lst] /\
    flat_map (fun l => l ++ [sep]) init ++ lst = s /\
    Forall (fun l => sep ∉ l) init /\ sep ∉ lst.
Proof.
  induction s as [|c s IH].
  - exists [], []. simpl. repeat split; [constructor | apply not_elem_of_nil].
  - destruct IH as (init & lst & Hs & Hj & Hi & Hl). simpl.
    destruct (Z.eqb_spec c sep) as [->|Hne].
    + exists ([] :: init), lst. rewrite Hs. simpl. rewrite Hj.
      repeat split; [|assumption]. constructor; [apply not_elem_of_nil | assumption].
    + rewrite Hs. destruct init as [|seg init]; simpl.
      * exists [], (c :: lst). simpl in *. subst s.
        repeat split; [constructor|]. rewrite not_elem_of_cons. auto.
      * exists ((c :: seg) :: init), lst. simpl in *.
        rewrite <- Hj. repeat split; [|assumption].
        inversion Hi; subst. constructor; [|assumption].
        rewrite not_elem_of_cons. auto.
Qed.

Lemma pop_snoc {A : Type} (init : list A) (lst : A) :
  pop (init ++ [lst]) = (Some lst, init).
Proof. unfold pop. now rewrite last_snoc, removelast_last. Qed.

Lemma split_nonempty (sep : Z) (s : jsstring) : fst (pop (split sep s)) <> None.
Proof.
  destruct (split_snoc sep s) as (init & lst & -> & _).
  now rewrite pop_snoc.
Qed.

Lemma feed_spec (data read : jsstring) :
  flat_map (fun l => l ++ [NL]) (fst (feed data read)) ++ snd (feed data read)
  = data ++ read /\
  Forall (fun l => NL ∉ l) (fst (feed data read)).
Proof.
  destruct read as [|c read].
  - simpl. rewrite app_nil_r. split; [reflexivity | constructor].
  - change (feed data (c :: read))
      with (let '(last, lines) := pop (split NL (data ++ c :: read)) in
            (lines, default [] last)).
    destruct (split_snoc NL (data ++ c :: read)) as (init & lst & -> & Hj & Hi & _).
    rewrite pop_snoc. simpl. auto.
Qed.

Lemma feed_nil (data : jsstring) : feed data [] = ([], data).
Proof. reflexivity. Qed.

Lemma feed_all_spec (chunks : list jsstring) (data : jsstring) :
  flat_map (fun l => l ++ [NL]) (fst (feed_all data chunks)) ++ snd (feed_all data chunks)
  = data ++ concat chunks /\
  Forall (fun l => NL ∉ l) (fst (feed_all data chunks)).
Proof.
  revert data. induction chunks as [|c chunks IH]; intros data; simpl.
  - rewrite app_nil_r. split; [reflexivity | constructor].
  - destruct (feed_spec data c) as [Hj Hn].
    destruct (feed data c) as [ls data']. simpl in *.
    destruct (IH data') as [Hj' Hn'].
    destruct (feed_all data' chunks) as [ls' data'']. simpl in *.
    split.
    + rewrite flat_map_app, <- app_assoc.
      etransitivity; [apply (f_equal (app _)); exact Hj'|].
      rewrite !app_assoc. f_equal. exact Hj.
    + apply Forall_app. auto.
Qed.

(** ** The line generator against the splitter *)

Lemma for_of_yield (L : Libc) (lines : list jsstring) (w : world L) :
  for_of L lines (yield L) w = (Normal tt, w, map EvYield lines).
Proof.
  induction lines as [|l lines IH]; simpl; [reflexivity|].
  unfold bind, yield in *. now rewrite IH.
Qed.

Lemma read_line_turn_run (L : Libc) (p : SerialPort) (data : jsstring) (w : world L) :
  read_line_turn L p data w =
  match read_string L p w with
  | (Normal c, w1, t1) =>
      (Normal (snd (feed data c)), w1, t1 ++ map EvYield (fst (feed data c)))
  | (Throw e, w1, t1) => (Throw e, w1, t1)
  end.
Proof.
  unfold read_line_turn. unfold bind at 1.
  destruct (read_string L p w) as [[[c|e] w1] t1]; [|reflexivity].
  unfold feed. destruct (length c =? 0)%nat.
  - unfold ret. reflexivity.
  - destruct (pop (split NL (data ++ c))) as [lst lines]. cbv zeta.
    unfold bind. rewrite for_of_yield. unfold ret. simpl.
    now rewrite app_nil_r.
Qed.

Lemma yields_app (t1 t2 : list event) : yields (t1 ++ t2) = yields t1 ++ yields t2.
Proof. apply omap_app. Qed.

Lemma yields_EvYield (ls : list jsstring) : yields (map EvYield ls) = ls.
Proof. induction ls as [|l ls IH]; simpl; [reflexivity|]. unfold yields in *. simpl. now rewrite IH. Qed.

Lemma syscalls_app (t1 t2 : list event) : syscalls (t1 ++ t2) = syscalls t1 ++ syscalls t2.
Proof. apply filter_app. Qed.

Lemma syscalls_EvYield (ls : list jsstring) : syscalls (map EvYield ls) = [].
Proof. induction ls as [|l ls IH]; [reflexivity|]. simpl. unfold syscalls in *. rewrite filter_cons_False; [exact IH|]. simpl. auto. Qed.

Lemma read_log (L : Libc) (p : SerialPort) (w : world L) :
  yields (log (read L p w)) = [] /\ syscalls (log (read L p w)) = log (read L p w).
Proof.
  destruct (decide (valid_length (read_size p))) as [Hv|Hv].
  - rewrite read_run by assumption. cbv zeta.
    destruct (geterrnoString_log L (snd (libc_read L (fd p) (read_size p) w))) as [n Hn].
    destruct (_ <? 0); [|destruct (ffi_bigint L _)]; unfold log in *; simpl;
      rewrite ?Hn; split; reflexivity.
  - rewrite read_invalid by assumption. split; reflexivity.
Qed.

Lemma read_string_log (L : Libc) (p : SerialPort) (w : world L) :
  yields (log (read_string L p w)) = [] /\
  syscalls (log (read_string L p w)) = log (read_string L p w).
Proof.
  pose proof (read_log L p w) as H.
  unfold read_string, bind, ret, log in *.
  destruct (read L p w) as [[[bs|e] w1] t1]; simpl in *; [|exact H].
  now rewrite app_nil_r.
Qed.

Lemma read_line_from_S (L : Libc) (p : SerialPort) (n : nat) (data : jsstring)
    (w : world L) :
  read_line_from L (S n) p data w =
  match read_string L p w with
  | (Normal c, w1, t1) =>
      let '(r, w2, t2) := read_line_from L n p (snd (feed data c)) w1 in
      (r, w2, (t1 ++ map EvYield (fst (feed data c))) ++ t2)
  | (Throw e, w1, t1) => (Throw e, w1, t1)
  end.
Proof.
  cbn [read_line_from]. unfold bind at 1. rewrite read_line_turn_run.
  destruct (read_string L p w) as [[[c|e] w1] t1]; reflexivity.
Qed.

Lemma read_line_from_feed_all (L : Libc) (p : SerialPort) (n : nat) :
  forall (data : jsstring) (w : world L) (chunks : list jsstring)
         (w' : world L) (t : list event),
    read_strings L n p w = (Normal chunks, w', t) ->
    outcome (read_line_from L n p data w) = Normal (snd (feed_all data chunks)) /\
    after (read_line_from L n p data w) = w' /\
    yields (log (read_line_from L n p data w)) = fst (feed_all data chunks) /\
    syscalls (log (read_line_from L n p data w)) = t.
Proof.
  induction n as [|n IH]; intros data w chunks w' t H.
  - simpl in *. unfold ret in *. injection H as <- <- <-. repeat split.
  - rewrite read_line_from_S.
    cbn [read_strings] in H. unfold bind at 1 in H.
    pose proof (read_string_log L p w) as [Hy Hs]. unfold log in Hy, Hs.
    destruct (read_string L p w) as [[[c|e] w1] t1]; [|discriminate].
    cbn [snd] in Hy, Hs.
    unfold bind at 1 in H.
    destruct (read_strings L n p w1) as [[[cs|e] w2] t2] eqn:E; [|discriminate].
    unfold ret in H. injection H as <- <- <-.
    destruct (IH (snd (feed data c)) w1 cs w2 t2 E) as (Ho & Ha & Hyi & Hsy).
    unfold outcome, after, log in *.
    destruct (read_line_from L n p (snd (feed data c)) w1) as [[r w3] t3].
    cbn [fst snd] in *. subst r w3.
    cbn [feed_all].
    destruct (feed data c) as [ls d']. cbn [fst snd] in *.
    destruct (feed_all d' cs) as [ls' d'']. cbn [fst snd] in *.
    repeat split.
    + rewrite !yields_app, Hy, yields_EvYield, Hyi. reflexivity.
    + rewrite !syscalls_app, Hs, syscalls_EvYield, Hsy, !app_nil_r. reflexivity.
Qed.

Lemma read_strings_S_inv (L : Libc) (p : SerialPort) (n : nat) (w w' : world L)
    (chunks : list jsstring) (t : list event) :
  read_strings L (S n) p w = (Normal chunks, w', t) ->
  exists c cs w1 t1 t2,
    chunks = c :: cs /\
    read_string L p w = (Normal c, w1, t1) /\
    read_strings L n p w1 = (Normal cs, w', t2) /\
    t = t1 ++ t2.
Proof.
  cbn [read_strings]. unfold bind at 1.
  destruct (read_string L p w) as [[[c|e] w1] t1]; [|discriminate].
  unfold bind at 1.
  destruct (read_strings L n p w1) as [[[cs|e] w2] t2] eqn:E2; [|discriminate].
  unfold ret. intros [= <- <- <-].
  exists c, cs, w1, t1, t2. rewrite app_nil_r. split_ands; auto.
Qed.

Lemma read_strings_S_intro (L : Libc) (p : SerialPort) (n : nat) (w w1 w' : world L)
    (c : jsstring) (cs : list jsstring) (t1 t2 : list event) :
  read_string L p w = (Normal c, w1, t1) ->
  read_strings L n p w1 = (Normal cs, w', t2) ->
  read_strings L (S n) p w = (Normal (c :: cs), w', t1 ++ t2).
Proof.
  intros E1 E2. cbn [read_strings]. unfold bind at 1. rewrite E1.
  unfold bind at 1. rewrite E2. unfold ret. now rewrite app_nil_r.
Qed.

(** ** [open], case by case *)

Lemma open_cases (L : Libc) (file : jsstring) (o : SerialOptions) (w : world L) :
  let r := open L file o w in
  let d := fst (stage_open L file w) in
  let g := fst (fst (stage_tcgetattr L file w)) in
  let s := fst (stage_tcsetattr L file o w) in
  let steps :=
    [EvOpen (TextEncoder_encode file) open_flags;
     EvTcgetattr d;
     EvCfsetspeed (tty_read L file w) (Baudrate_value (baudrate o));
     EvTcsetattr d TCSANOW (tty_commit L file o w)] in
  (d < 0 /\
   outcome r = Throw (Error (lit "Couldn't open '" ++ file ++ lit "': "
                               ++ errno_string L (snd (stage_open L file w)))) /\
   exists n, log r = take 1 steps ++ [EvErrnoLocation; EvStrerror n]) \/
  (0 <= d /\ g <> 0 /\
   outcome r = Throw (Error (lit "tcgetattr: "
                               ++ errno_string L (snd (stage_tcgetattr L file w)))) /\
   exists n, log r = take 2 steps ++ [EvErrnoLocation; EvStrerror n]) \/
  (0 <= d /\ g = 0 /\ s <> 0 /\
   outcome r = Throw (Error (lit "tcsetattr: "
                               ++ errno_string L (snd (stage_tcsetattr L file o w)))) /\
   exists n, log r = steps ++ [EvErrnoLocation; EvStrerror n]) \/
  (0 <= d /\ g = 0 /\ s = 0 /\
   outcome r = Normal {| fd := d; options := o |} /\
   after r = snd (stage_tcsetattr L file o w) /\
   log r = steps).
Proof.
  cbv zeta. rewrite open_run. cbv zeta.
  destruct (Z.ltb_spec (fst (stage_open L file w)) 0) as [Hd|Hd].
  { left. split; [assumption|]. split; [reflexivity|].
    destruct (geterrnoString_log L (snd (stage_open L file w))) as [n Hn].
    exists n. unfold log in *. simpl. now rewrite Hn. }
  right.
  destruct (Z.eqb_spec (fst (fst (stage_tcgetattr L file w))) 0) as [Hg|Hg]; simpl negb; cbv iota.
  2:{ left. repeat (split; [assumption || reflexivity|]).
      destruct (geterrnoString_log L (snd (stage_tcgetattr L file w))) as [n Hn].
      exists n. unfold log in *. simpl. now rewrite Hn. }
  right.
  destruct (Z.eqb_spec (fst (stage_tcsetattr L file o w)) 0) as [Hs|Hs]; simpl negb; cbv iota.
  2:{ left. repeat (split; [assumption || reflexivity|]).
      destruct (geterrnoString_log L (snd (stage_tcsetattr L file o w))) as [n Hn].
      exists n. unfold log in *. simpl. now rewrite Hn. }
  right. repeat (split; [assumption || reflexivity|]). reflexivity.
Qed.

Lemma never_closed_handle {A : Type} (c : completion A) : ~ raises ClosedHandle c.
Proof. intros (e & _ & H). now apply kind_of_not_closed_handle in H. Qed.

Lemma open_never_closes (L : Libc) (file : jsstring) (o : SerialOptions) (w : world L) :
  closed (log (open L file o w)) = [].
Proof.
  destruct (open_cases L file o w)
    as [(_ & _ & n & ->)|[(_ & _ & _ & n & ->)|[(_ & _ & _ & _ & n & ->)|(_ & _ & _ & _ & _ & ->)]]];
    reflexivity.
Qed.

Lemma open_committed (L : Libc) (file : jsstring) (o : SerialOptions) (w : world L) :
  committed (log (open L file o w)) =
  if (fst (stage_open L file w) <? 0)
     || negb (fst (fst (stage_tcgetattr L file w)) =? 0)
  then [] else [tty_commit L file o w].
Proof.
  destruct (open_cases L file o w)
    as [(Hd & _ & n & ->)|[(Hd & Hg & _ & n & ->)|[(Hd & Hg & _ & _ & n & ->)|(Hd & Hg & _ & _ & _ & ->)]]].
  - destruct (Z.ltb_spec (fst (stage_open L file w)) 0); [reflexivity | lia].
  - destruct (Z.ltb_spec (fst (stage_open L file w)) 0); [lia|].
    destruct (Z.eqb_spec (fst (fst (stage_tcgetattr L file w))) 0); [lia | reflexivity].
  - destruct (Z.ltb_spec (fst (stage_open L file w)) 0); [lia|].
    destruct (Z.eqb_spec (fst (fst (stage_tcgetattr L file w))) 0); [reflexivity | lia].
  - destruct (Z.ltb_spec (fst (stage_open L file w)) 0); [lia|].
    destruct (Z.eqb_spec (fst (fst (stage_tcgetattr L file w))) 0); [reflexivity | lia].
Qed.

Lemma open_normal_committed (L : Libc) (file : jsstring) (o : SerialOptions) (w : world L) :
  is_normal (outcome (open L file o w)) = true ->
  committed (log (open L file o w)) = [tty_commit L file o w].
Proof.
  destruct (open_cases L file o w)
    as [(_ & -> & _)|[(_ & _ & -> & _)|[(_ & _ & _ & -> & _)|(_ & _ & _ & _ & _ & ->)]]];
    simpl; intros H; try discriminate. reflexivity.
Qed.

(** * The claims *)

(** C2. Every termios image that [open] hands to [tcsetattr] is raw 8N1:
    input, output and local flags are zero; in the control flags PARENB,
    CSTOPB and CRTSCTS are clear, the CSIZE field holds CS8, CREAD and
    CLOCAL are set. This holds for every baud rate of the enumeration and
    whatever [tcgetattr] and [cfsetspeed] left in the buffer; an [open]
    that returns a port has handed over exactly one image. *)
Theorem open_commits_raw_8N1 (L : Libc) (file : jsstring) (o : SerialOptions)
    (w : world L) :
  (is_normal (outcome (open L file o w)) = true ->
   committed (log (open L file o w)) = [tty_commit L file o w]) /\
  Forall (raw_8N1 (native_little_endian L)) (committed (log (open L file o w))).
Proof.
  split; [apply open_normal_committed|].
  rewrite open_committed. destruct (_ || _); constructor; [|constructor].
  apply configured_raw_8N1, length_tty_speed.
Qed.

(** C6. With both options in [0,255], the image [open] hands to
    [tcsetattr] holds [timeout_in_deciseconds] in the byte at 17 + VTIME
    and [minimum_number_of_chars_read] in the byte at 17 + VMIN: reading
    the bytes back gives the values written. *)
Theorem open_commits_vtime_vmin (L : Libc) (file : jsstring) (o : SerialOptions)
    (w : world L) :
  0 <= timeout_in_deciseconds o <= 255 ->
  0 <= minimum_number_of_chars_read o <= 255 ->
  (is_normal (outcome (open L file o w)) = true ->
   committed (log (open L file o w)) = [tty_commit L file o w]) /\
  Forall (fun tty =>
            getUint8 tty (17 + VTIME) = Normal (timeout_in_deciseconds o) /\
            getUint8 tty (17 + VMIN) = Normal (minimum_number_of_chars_read o))
         (committed (log (open L file o w))).
Proof.
  intros Ht Hm. split; [apply open_normal_committed|].
  rewrite open_committed. destruct (_ || _); constructor; [|constructor].
  unfold tty_commit.
  rewrite configured_vtime, configured_vmin by apply length_tty_speed.
  now rewrite !Z.mod_small by lia.
Qed.

(** The demonstration's options (10 and 0) on the simulated machine. *)
Lemma open_commits_vtime_vmin_witness :
  exists tty,
    committed (log (open sim Sim.device demo_options (Sim.boot []))) = [tty] /\
    getUint8 tty 22 = Normal 10 /\ getUint8 tty 23 = Normal 0.
Proof.
  destruct (open_commits_vtime_vmin sim Sim.device demo_options (Sim.boot []))
    as [Hc Hf]; [simpl; lia | simpl; lia |].
  rewrite (Hc eq_refl) in Hf |- *.
  eexists. split; [reflexivity|].
  inversion Hf as [|? ? Hx _]. exact Hx.
Defined.

(** C9. Whatever integers the two options hold, [open] stores them
    reduced modulo 256: the image handed to [tcsetattr] holds
    [timeout_in_deciseconds mod 256] at 17 + VTIME and
    [minimum_number_of_chars_read mod 256] at 17 + VMIN. The store raises
    nothing: [open] never throws a [RangeError], and reaches [tcsetattr]
    whenever the OS open and [tcgetattr] succeeded. A value above 255 is
    not clamped: 256 is stored as 0. *)
Theorem open_truncates_vtime_vmin (L : Libc) (file : jsstring) (o : SerialOptions)
    (w : world L) :
  Forall (fun tty =>
            getUint8 tty (17 + VTIME) = Normal (timeout_in_deciseconds o mod 256) /\
            getUint8 tty (17 + VMIN) = Normal (minimum_number_of_chars_read o mod 256))
         (committed (log (open L file o w))) /\
  outcome (open L file o w) <> Throw RangeError /\
  (0 <= fst (stage_open L file w) ->
   fst (fst (stage_tcgetattr L file w)) = 0 ->
   committed (log (open L file o w)) = [tty_commit L file o w]) /\
  (timeout_in_deciseconds o = 256 ->
   Forall (fun tty => getUint8 tty (17 + VTIME) = Normal 0)
          (committed (log (open L file o w)))).
Proof.
  repeat apply conj.
  - rewrite open_committed. destruct (_ || _); constructor; [|constructor].
    unfold tty_commit.
    now rewrite configured_vtime, configured_vmin by apply length_tty_speed.
  - destruct (open_cases L file o w)
      as [(_ & -> & _)|[(_ & _ & -> & _)|[(_ & _ & _ & -> & _)|(_ & _ & _ & -> & _)]]];
      discriminate.
  - intros Hd Hg. rewrite open_committed.
    destruct (Z.ltb_spec (fst (stage_open L file w)) 0); [lia|].
    rewrite Hg. reflexivity.
  - intros Ht. rewrite open_committed. destruct (_ || _); constructor; [|constructor].
    unfold tty_commit.
    rewrite configured_vtime by apply length_tty_speed. now rewrite Ht.
Qed.

(** C4. [open] runs its steps in order and stops at the first that
    fails. It throws the error of the OS open (with the rendered errno
    string in the message) exactly when libc's [open] returns a negative
    descriptor, and then calls nothing else but the errno rendering; the
    [tcgetattr] error exactly when the descriptor is valid and [tcgetattr]
    does not return 0; the [tcsetattr] error exactly when those two
    succeeded and [tcsetattr] does not return 0; and it returns the port
    exactly when all three succeeded. The value [cfsetspeed] returns takes
    no part: the call is made and its result dropped. *)
Theorem open_error_handling (L : Libc) (file : jsstring) (o : SerialOptions)
    (w : world L) :
  let r := open L file o w in
  let d := fst (stage_open L file w) in
  let g := fst (fst (stage_tcgetattr L file w)) in
  let s := fst (stage_tcsetattr L file o w) in
  (raises OpenFailed (outcome r) <-> d < 0) /\
  (d < 0 ->
   outcome r = Throw (Error (lit "Couldn't open '" ++ file ++ lit "': "
                               ++ errno_string L (snd (stage_open L file w)))) /\
   symbols (log r) = [sym_open; sym_errno_location; sym_strerror]) /\
  (raises GetAttributesFailed (outcome r) <-> 0 <= d /\ g <> 0) /\
  (0 <= d -> g <> 0 ->
   symbols (log r) = [sym_open; sym_tcgetattr; sym_errno_location; sym_strerror]) /\
  (raises SetAttributesFailed (outcome r) <-> 0 <= d /\ g = 0 /\ s <> 0) /\
  (0 <= d -> g = 0 -> s <> 0 ->
   symbols (log r) = [sym_open; sym_tcgetattr; sym_cfsetspeed; sym_tcsetattr;
                      sym_errno_location; sym_strerror]) /\
  (outcome r = Normal {| fd := d; options := o |} <-> 0 <= d /\ g = 0 /\ s = 0) /\
  (0 <= d -> g = 0 -> s = 0 ->
   symbols (log r) = [sym_open; sym_tcgetattr; sym_cfsetspeed; sym_tcsetattr]).
Proof.
  cbv zeta.
  destruct (open_cases L file o w)
    as [(Hd & Ho & n & Hl)|[(Hd & Hg & Ho & n & Hl)
       |[(Hd & Hg & Hs & Ho & n & Hl)|(Hd & Hg & Hs & Ho & _ & Hl)]]];
    rewrite Ho, Hl; clear Ho Hl;
    rewrite ?raises_Throw, ?kind_of_open, ?kind_of_tcgetattr, ?kind_of_tcsetattr;
    repeat apply conj;
    try (intros; exfalso; lia);
    try (intros; reflexivity);
    try (intros; split; reflexivity);
    try (intros H; exfalso; first [discriminate H | apply raises_Normal in H; exact H]);
    try (intros _; lia);
    try (intros _; repeat split; lia).
Qed.

(** C5, the failing run: on a device that is not a terminal, [open]
    obtains descriptor 3, [tcgetattr] fails, and [open] throws without a
    call to [close]; the descriptor stays open in the world it leaves,
    and no port was returned that could close it. *)
Theorem open_leaks_descriptor :
  let w := Sim.with_line false true true (Sim.boot []) in
  let r := open sim Sim.device demo_options w in
  fst (stage_open sim Sim.device w) = 3 /\
  outcome r = Throw (Error (lit "tcgetattr: Inappropriate ioctl for device")) /\
  closed (log r) = [] /\
  Sim.fds (after r) = [3] /\
  ~ no_leak_rule sim Sim.device demo_options w.
Proof.
  cbv zeta. repeat apply conj; try (vm_compute; reflexivity).
  intros H. unfold no_leak_rule in H.
  rewrite open_never_closes in H.
  eapply not_elem_of_nil, H; vm_compute; [discriminate | reflexivity].
Qed.

(** C1, counterexample: on the simulated machine the demonstration's
    port is closed successfully; the second [close] still calls libc's
    [close] on descriptor 3, so the rule of the specification fails. *)
Lemma closed_port_rule_counterexample :
  ~ closed_port_rule sim demo_port (demo_world []).
Proof.
  intros H. destruct (H eq_refl) as (_ & _ & _ & Hc).
  vm_compute in Hc. discriminate Hc.
Qed.

(** What the closed port does on that machine: each operation reaches
    libc with descriptor 3 and reports the OS error. *)
Example closed_port_reaches_libc :
  let w' := after (close sim demo_port (demo_world [])) in
  outcome (close sim demo_port (demo_world [])) = Normal tt /\
  log (read sim demo_port w') = [EvRead 3 255; EvErrnoLocation; EvStrerror 9] /\
  outcome (read sim demo_port w')
  = Throw (Error (lit "Error while reading: Bad file descriptor")) /\
  log (close sim demo_port w') = [EvClose 3; EvErrnoLocation; EvStrerror 9] /\
  outcome (close sim demo_port w')
  = Throw (Error (lit "Error while closing: Bad file descriptor")).
Proof. cbv zeta. repeat apply conj; vm_compute; reflexivity. Qed.

(** When the descriptor number has been given out again, the closed port
    reads the new owner's input and closes the new owner's descriptor. *)
Example closed_port_uses_reused_descriptor :
  let w1 := after (close sim demo_port (demo_world [ascii_bytes "AB"])) in
  let r2 := open sim Sim.device demo_options w1 in
  outcome r2 = Normal demo_port /\
  outcome (read sim demo_port (after r2)) = Normal (ascii_bytes "AB") /\
  outcome (close sim demo_port (after r2)) = Normal tt.
Proof. cbv zeta. repeat apply conj; vm_compute; reflexivity. Qed.

(** C1, amended. A port keeps no open/closed state. Every call of
    [close], the one after a [close] included, calls libc's [close] once
    with the stored descriptor and succeeds exactly when that call does
    not return a negative value (it throws the close error otherwise).
    After [close], [read] and [write] still call libc with the same
    descriptor, and succeed or fail as those calls do: [read] returns
    exactly when the count is not negative and arrives as a number,
    [write] exactly when the count is the full length and arrives as a
    number. None of the three ever fails with [ClosedHandle]. *)
Theorem close_keeps_no_state (L : Libc) (p : SerialPort) (w : world L) :
  let w' := after (close L p w) in
  closed (log (close L p w)) = [fd p] /\
  (outcome (close L p w) = Normal tt <-> 0 <= fst (libc_close L (fd p) w)) /\
  (raises CloseError (outcome (close L p w)) <-> fst (libc_close L (fd p) w) < 0) /\
  closed (log (close L p w')) = [fd p] /\
  (outcome (close L p w') = Normal tt <-> 0 <= fst (libc_close L (fd p) w')) /\
  (raises CloseError (outcome (close L p w')) <-> fst (libc_close L (fd p) w') < 0) /\
  (valid_length (read_size p) ->
   head (log (read L p w')) = Some (EvRead (fd p) (read_size p)) /\
   (is_normal (outcome (read L p w')) = true
    <-> 0 <= fst (fst (libc_read L (fd p) (read_size p) w')) /\
        number_result L (fst (fst (libc_read L (fd p) (read_size p) w'))))) /\
  (forall data,
      head (log (write L p data w'))
      = Some (EvWrite (fd p) data (Z.of_nat (length data))) /\
      (outcome (write L p data w') = Normal tt
       <-> fst (libc_write L (fd p) data (Z.of_nat (length data)) w')
           = Z.of_nat (length data) /\
           number_result L (fst (libc_write L (fd p) data (Z.of_nat (length data)) w')))) /\
  ~ raises ClosedHandle (outcome (read L p w')) /\
  (forall data, ~ raises ClosedHandle (outcome (write L p data w'))) /\
  ~ raises ClosedHandle (outcome (close L p w')).
Proof.
  cbv zeta.
  assert (Hclosed : forall v, closed (log (close L p v)) = [fd p]).
  { intros v. rewrite close_run. cbv zeta.
    destruct (geterrnoString_log L (snd (libc_close L (fd p) v))) as [n Hn].
    destruct (_ <? 0); unfold log in *; simpl; [rewrite Hn|]; reflexivity. }
  assert (Hok : forall v, outcome (close L p v) = Normal tt
                          <-> 0 <= fst (libc_close L (fd p) v)).
  { intros v. rewrite close_run. cbv zeta.
    destruct (Z.ltb_spec (fst (libc_close L (fd p) v)) 0); simpl; split;
      intros; try discriminate; try lia; reflexivity. }
  assert (Herr : forall v, raises CloseError (outcome (close L p v))
                           <-> fst (libc_close L (fd p) v) < 0).
  { intros v. rewrite close_run. cbv zeta.
    destruct (Z.ltb_spec (fst (libc_close L (fd p) v)) 0); unfold outcome; cbn [fst].
    - rewrite raises_Throw, kind_of_closing. split; auto.
    - split; [intros H'; now apply raises_Normal in H' | lia]. }
  set (w' := after (close L p w)).
  split_ands; try apply Hclosed; try apply Hok; try apply Herr;
    try (intros; apply never_closed_handle).
  - intros Hv. rewrite read_run by assumption. cbv zeta. unfold number_result.
    destruct (Z.ltb_spec (fst (fst (libc_read L (fd p) (read_size p) w'))) 0);
      [|destruct (ffi_bigint L _)];
      simpl; (split; [reflexivity|]); split;
      first [ intros [? ?]; first [lia | discriminate]
            | intros; first [discriminate | split; first [lia | reflexivity]]
            | intros; reflexivity ].
  - intros data. rewrite write_run. cbv zeta. unfold number_result.
    destruct (Z.ltb_spec (fst (libc_write L (fd p) data (Z.of_nat (length data)) w')) 0).
    + simpl. split; [reflexivity|]. split; [intros; discriminate | intros [? ?]; lia].
    + destruct (ffi_bigint L _);
        destruct (Z.eqb_spec (fst (libc_write L (fd p) data (Z.of_nat (length data)) w'))
                    (Z.of_nat (length data))); simpl;
        (split; [reflexivity|]); split;
        first [ intros [? ?]; first [contradiction | discriminate | lia]
              | intros; first [discriminate | split; first [assumption | reflexivity]]
              | intros; reflexivity ].
Qed.

(** C4, an instance: the line refuses the speed, [cfsetspeed] returns
    -1, and [open] still returns the port. *)
Example open_ignores_cfsetspeed :
  let w := Sim.with_line true false true (Sim.boot []) in
  fst (fst (stage_cfsetspeed sim Sim.device demo_options w)) = -1 /\
  outcome (open sim Sim.device demo_options w) = Normal demo_port.
Proof. cbv zeta. split; vm_compute; reflexivity. Qed.





(** C3. When four reads in a row deliver "AB", "C\n", "DE\n" and "F",
    the generator yields "ABC" and then "DE" and nothing else, and
    holds "F" as pending data after the fourth read; "ABC" is yielded
    as soon as the second read has returned. *)
Theorem read_line_four_reads (L : Libc) (p : SerialPort) (w w' : world L)
    (t : list event) :
  read_strings L 4 p w
  = (Normal [lit "AB"; lit "C" ++ [NL]; lit "DE" ++ [NL]; lit "F"], w', t) ->
  yields (log (read_line L 4 p w)) = [lit "ABC"; lit "DE"] /\
  outcome (read_line L 4 p w) = Normal (lit "F") /\
  yields (log (read_line L 2 p w)) = [lit "ABC"] /\
  syscalls (log (read_line L 4 p w)) = t.
Proof.
  intros H.
  destruct (read_line_from_feed_all L p 4 [] w _ _ _ H) as (Ho & _ & Hy & Hs).
  unfold read_line. rewrite Ho, Hy, Hs.
  split_ands; try reflexivity.
  apply read_strings_S_inv in H as (c1 & cs1 & w1 & t1 & t1' & E & E1 & H & _).
  injection E as <- <-.
  apply read_strings_S_inv in H as (c2 & cs2 & w2 & t2 & t2' & E & E2 & _ & _).
  injection E as <- <-.
  assert (H2 : read_strings L 2 p w
               = (Normal [lit "AB"; lit "C" ++ [NL]], w2, t1 ++ t2 ++ [])).
  { apply read_strings_S_intro with (w1 := w1); [exact E1|].
    apply read_strings_S_intro with (w1 := w2); [exact E2|]. reflexivity. }
  destruct (read_line_from_feed_all L p 2 [] w _ _ _ H2) as (_ & _ & Hy2 & _).
  rewrite Hy2. reflexivity.
Qed.

(** The four reads on the simulated line, from raw bytes. *)
Lemma read_line_four_reads_witness :
  yields (log (read_line sim 4 demo_port (demo_world four_reads)))
  = [lit "ABC"; lit "DE"] /\
  outcome (read_line sim 4 demo_port (demo_world four_reads)) = Normal (lit "F").
Proof.
  edestruct (read_line_four_reads sim demo_port (demo_world four_reads))
    as (Hy & Ho & _); [vm_compute; reflexivity|].
  split; assumption.
Defined.

(** C10. Whatever chunks [n] reads in a row deliver, the generator keeps
    their content: the lines yielded, each followed by a newline, and
    then the pending data, spell the chunks one after the other; no line
    yielded holds a newline; and a turn whose read delivers the empty
    string yields nothing and leaves the pending data as it was. *)
Theorem read_line_preserves_content (L : Libc) (p : SerialPort) (n : nat)
    (w w' : world L) (chunks : list jsstring) (t : list event) :
  read_strings L n p w = (Normal chunks, w', t) ->
  (exists pending,
      outcome (read_line L n p w) = Normal pending /\
      flat_map (fun l => l ++ [NL]) (yields (log (read_line L n p w))) ++ pending
      = concat chunks) /\
  Forall (fun l => NL ∉ l) (yields (log (read_line L n p w))) /\
  (forall data w1 w2 t1,
      read_string L p w1 = (Normal [], w2, t1) ->
      read_line_turn L p data w1 = (Normal data, w2, t1) /\ yields t1 = []).
Proof.
  intros H.
  destruct (read_line_from_feed_all L p n [] w _ _ _ H) as (Ho & _ & Hy & _).
  destruct (feed_all_spec chunks []) as [Hj Hn].
  unfold read_line. rewrite Ho, Hy. split_ands.
  - eexists. split; [reflexivity | exact Hj].
  - exact Hn.
  - intros data w1 w2 t1 E. rewrite read_line_turn_run, E.
    rewrite feed_nil. cbn [fst snd map]. rewrite app_nil_r.
    split; [reflexivity|].
    pose proof (read_string_log L p w1) as [Hy1 _]. now rewrite E in Hy1.
Qed.

(** The same four reads: the content is kept. *)
Lemma read_line_preserves_content_witness :
  exists pending,
    outcome (read_line sim 4 demo_port (demo_world four_reads)) = Normal pending /\
    flat_map (fun l => l ++ [NL])
      (yields (log (read_line sim 4 demo_port (demo_world four_reads)))) ++ pending
    = lit "ABC" ++ [NL] ++ lit "DE" ++ [NL] ++ lit "F".
Proof.
  edestruct (read_line_preserves_content sim demo_port 4 (demo_world four_reads))
    as ((pending & Ho & Hj) & _); [vm_compute; reflexivity|].
  exists pending. split; [exact Ho | exact Hj].
Defined.

(** * Further properties of the code *)

(** ** The errno rendering *)

(** X1. [geterrnoString] never throws. It calls [__errno_location] and then
    [strerror] with the number read there, 0 when the pointer is null,
    and returns the text of [strerror], the empty string when that
    pointer is null. *)
Theorem geterrnoString_renders (L : Libc) (w : world L) :
  let r := geterrnoString L w in
  let e := default 0 (fst (libc_errno_location L w)) in
  let w1 := snd (libc_errno_location L w) in
  log r = [EvErrnoLocation; EvStrerror e] /\
  outcome r = Normal (default [] (fst (libc_strerror L e w1))) /\
  after r = snd (libc_strerror L e w1).
Proof.
  cbv zeta. unfold geterrnoString, errno, strerror, bind, call, ret, outcome, after, log.
  destruct (libc_errno_location L w) as [[e|] w1]; cbn [fst snd default];
    destruct (libc_strerror L _ w1) as [[s|] w2]; split_ands; reflexivity.
Qed.

(** X2. [is_platform_little_endian] returns the byte order of the host:
    [true] exactly on a little-endian one. It calls nothing in libc and
    never throws. *)
Theorem is_platform_little_endian_correct (L : Libc) (w : world L) :
  is_platform_little_endian L w = (Normal (native_little_endian L), w, []).
Proof. apply is_platform_little_endian_run. Qed.

(** ** What [open] leaves alone *)

Lemma lookup_blit_other (buf : list byte) (off : nat) (bs : list byte) (i : nat) :
  (off + length bs <= length buf)%nat ->
  (i < off \/ off + length bs <= i)%nat ->
  blit buf off bs !! i = buf !! i.
Proof.
  intros Hin Hi. unfold blit. destruct Hi as [Hi|Hi].
  - rewrite lookup_app_l by (rewrite length_take; lia).
    now rewrite lookup_take_lt by lia.
  - rewrite lookup_app_r by (rewrite length_take; lia).
    rewrite length_take, Nat.min_l by lia.
    rewrite lookup_app_r by lia.
    rewrite lookup_drop. f_equal. lia.
Qed.

Lemma configured_other_bytes (le : bool) (o : SerialOptions) (tty : list byte) (i : nat) :
  length tty = 100%nat ->
  (16 <= i)%nat -> i <> 22%nat -> i <> 23%nat ->
  configured le o tty !! i = tty !! i.
Proof.
  intros Hlen Hi H22 H23. unfold configured.
  repeat (rewrite lookup_blit_other;
          [| repeat (rewrite length_blit; rewrite ?length_word, ?length_le_split; try lia);
             rewrite ?length_word, ?length_le_split; lia
           | rewrite ?length_word, ?length_le_split; lia]).
  reflexivity.
Qed.

Lemma configured_cflag_source (le : bool) (o : SerialOptions) (tty : list byte) :
  length tty = 100%nat ->
  getUint32 (configured le o tty) 8 le
  = Normal (ToUint32 (cflag_8N1 (le_combine (ordered le (slice tty 8 4))))).
Proof.
  intros Hlen. rewrite configured_cflag by assumption.
  do 3 f_equal. f_equal. f_equal.
  rewrite slice_blit_after;
    [| rewrite length_blit; rewrite ?length_word; lia | rewrite length_word; lia].
  rewrite slice_blit_after; [reflexivity | rewrite length_word; lia | rewrite length_word; lia].
Qed.

Lemma cflag_8N1_other_bits (c n : Z) :
  0 <= n < 32 -> n ∉ edited_bits ->
  Z.testbit (ToUint32 (cflag_8N1 c)) n = Z.testbit c n.
Proof.
  intros Hn He. unfold edited_bits in He.
  rewrite !not_elem_of_cons in He.
  destruct He as (? & ? & ? & ? & ? & ? & ? & _).
  assert (Hc : n = 0 \/ n = 1 \/ n = 2 \/ n = 3 \/ n = 9 \/ n = 10 \/ n = 12 \/
               n = 13 \/ n = 14 \/ n = 15 \/ n = 16 \/ n = 17 \/ n = 18 \/ n = 19 \/
               n = 20 \/ n = 21 \/ n = 22 \/ n = 23 \/ n = 24 \/ n = 25 \/ n = 26 \/
               n = 27 \/ n = 28 \/ n = 29 \/ n = 30) by lia.
  unfold cflag_8N1, ToUint32, js_and, js_or, js_not.
  rewrite Z.mod_pow2_bits_low by lia.
  repeat first
    [ rewrite Z.lor_spec | rewrite Z.land_spec | rewrite Z.lnot_spec by lia
    | rewrite testbit_ToInt32 by lia ].
  repeat (destruct Hc as [->|Hc]; [destruct (Z.testbit c _); vm_compute; reflexivity|]).
  subst n. destruct (Z.testbit c _); vm_compute; reflexivity.
Qed.

(** X3. Every byte of the image outside the four flag words and the two
    control characters reaches [tcsetattr] as [tcgetattr] and [cfsetspeed]
    left it. *)
Theorem open_keeps_other_bytes (L : Libc) (file : jsstring) (o : SerialOptions)
    (w : world L) (i : nat) :
  (16 <= i)%nat -> i <> 22%nat -> i <> 23%nat ->
  (is_normal (outcome (open L file o w)) = true ->
   committed (log (open L file o w)) = [tty_commit L file o w]) /\
  Forall (fun tty => length tty = 100%nat /\ tty !! i = tty_speed L file o w !! i)
         (committed (log (open L file o w))).
Proof.
  intros Hi H22 H23. split; [apply open_normal_committed|].
  rewrite open_committed. destruct (_ || _); constructor; [|constructor].
  unfold tty_commit. split.
  - apply length_configured, length_tty_speed.
  - apply configured_other_bytes; auto using length_tty_speed.
Qed.

Lemma open_keeps_other_bytes_witness :
  exists tty,
    committed (log (open sim Sim.device demo_options (Sim.boot []))) = [tty] /\
    tty !! 52%nat = Some (byte_of_Z 2) /\ tty !! 53%nat = Some (byte_of_Z 16).
Proof.
  destruct (open_keeps_other_bytes sim Sim.device demo_options (Sim.boot []) 52)
    as [Hc Hf]; [lia | lia | lia |].
  destruct (open_keeps_other_bytes sim Sim.device demo_options (Sim.boot []) 53)
    as [_ Hf']; [lia | lia | lia |].
  rewrite (Hc eq_refl) in Hf, Hf' |- *.
  eexists. split; [reflexivity|].
  inversion Hf as [|? ? [_ Hx] _]. inversion Hf' as [|? ? [_ Hx'] _].
  rewrite Hx, Hx'. split; vm_compute; reflexivity.
Defined.

(** X4. In the control flags, every bit that [open] does not edit reaches
    [tcsetattr] as it was after [cfsetspeed]: the speed bits, HUPCL,
    PARODD and the rest. *)
Theorem open_keeps_other_cflag_bits (L : Libc) (file : jsstring) (o : SerialOptions)
    (w : world L) (c n : Z) :
  getUint32 (tty_speed L file o w) 8 (native_little_endian L) = Normal c ->
  0 <= n < 32 -> n ∉ edited_bits ->
  Forall (fun tty => exists c',
              getUint32 tty 8 (native_little_endian L) = Normal c' /\
              Z.testbit c' n = Z.testbit c n)
         (committed (log (open L file o w))).
Proof.
  intros Hc Hn He.
  rewrite open_committed. destruct (_ || _); constructor; [|constructor].
  unfold tty_commit.
  rewrite configured_cflag_source by apply length_tty_speed.
  rewrite getUint32_normal in Hc by (rewrite ?length_tty_speed; lia).
  injection Hc as <-. change (Z.to_nat 8) with 8%nat.
  eexists. split; [reflexivity|]. now apply cflag_8N1_other_bits.
Qed.

Lemma open_keeps_other_cflag_bits_witness :
  Forall (fun tty => exists c',
              getUint32 tty 8 true = Normal c' /\ Z.testbit c' 12 = true)
         (committed (log (open sim Sim.device demo_options (Sim.boot [])))).
Proof.
  apply (open_keeps_other_cflag_bits sim Sim.device demo_options (Sim.boot [])
           0xFFFFFFFF 12).
  - vm_compute. reflexivity.
  - lia.
  - unfold edited_bits. rewrite !not_elem_of_cons. split_ands; try lia.
    apply not_elem_of_nil.
Defined.

(** ** ASCII text through the codecs *)

Lemma byte_to_of_Z_small (c : Z) : 0 <= c < 256 -> byte_to_Z (byte_of_Z c) = c.
Proof. intros H. rewrite byte_to_of_Z. now apply Z.mod_small. Qed.

Lemma code_points_ascii (s : jsstring) : ascii_text s -> code_points s = s.
Proof.
  induction 1 as [|c s Hc _ IH]; [reflexivity|].
  cbn [code_points]. unfold is_high_surrogate, is_low_surrogate.
  destruct (Z.leb_spec 0xD800 c); [lia|]. destruct (Z.leb_spec 0xDC00 c); [lia|].
  cbn [andb]. now rewrite IH.
Qed.

Lemma TextEncoder_encode_ascii (s : jsstring) :
  ascii_text s -> TextEncoder_encode s = map byte_of_Z s.
Proof.
  intros H. unfold TextEncoder_encode. rewrite code_points_ascii by assumption.
  induction H as [|c s Hc _ IH]; [reflexivity|].
  cbn [flat_map map]. rewrite IH. unfold utf8_of_code_point.
  destruct (Z.ltb_spec c 0x80); [reflexivity | lia].
Qed.

Lemma utf8_run_ascii (bs : list byte) :
  ascii_data bs -> utf8_run utf8_init bs = map byte_to_Z bs.
Proof.
  induction 1 as [|b bs Hb _ IH]; [reflexivity|].
  cbn [utf8_run map]. unfold utf8_step. cbn [u_needed utf8_init Z.eqb].
  unfold utf8_lead. destruct (Z.leb_spec (byte_to_Z b) 0x7F); [|lia].
  now rewrite IH.
Qed.

Lemma TextDecoder_decode_ascii (bs : list byte) :
  ascii_data bs -> TextDecoder_decode bs = map byte_to_Z bs.
Proof.
  intros H. unfold TextDecoder_decode. rewrite utf8_run_ascii by assumption.
  assert (Hs : strip_BOM (map byte_to_Z bs) = map byte_to_Z bs).
  { destruct H as [|b bs Hb _]; [reflexivity|]. cbn [map strip_BOM].
    destruct (Z.eqb_spec (byte_to_Z b) 0xFEFF); [lia | reflexivity]. }
  rewrite Hs. clear Hs.
  induction H as [|b bs Hb _ IH]; [reflexivity|].
  cbn [map flat_map]. rewrite IH. unfold utf16_of_code_point.
  destruct (Z.ltb_spec (byte_to_Z b) 0x10000); [reflexivity | lia].
Qed.

Lemma ascii_data_of_text (s : jsstring) : ascii_text s -> ascii_data (map byte_of_Z s).
Proof.
  induction 1 as [|c s Hc _ IH]; constructor; [|exact IH].
  rewrite byte_to_of_Z_small; lia.
Qed.

Lemma decode_encode_ascii (s : jsstring) :
  ascii_text s -> TextDecoder_decode (TextEncoder_encode s) = s.
Proof.
  intros H. rewrite TextEncoder_encode_ascii by assumption.
  rewrite TextDecoder_decode_ascii by now apply ascii_data_of_text.
  induction H as [|c s Hc _ IH]; [reflexivity|].
  cbn [map]. rewrite IH, byte_to_of_Z_small by lia. reflexivity.
Qed.

(** ** The calls of [open] *)

(** X5. The log of [open] holds nothing but its four calls and the errno
    rendering: the path goes to libc's [open] in UTF-8 with the flags
    O_RDWR | O_NOCTTY | O_SYNC = 0x101102; [tcgetattr] and [tcsetattr]
    get the descriptor libc returned, [tcsetattr] with TCSANOW;
    [cfsetspeed] gets the code of the baud rate. [open] never calls
    [close], [read] or [write]. *)
Theorem open_calls (L : Libc) (file : jsstring) (o : SerialOptions) (w : world L) :
  Forall (open_call file o (fst (stage_open L file w))) (log (open L file o w)).
Proof.
  destruct (open_cases L file o w)
    as [(_ & _ & n & ->)|[(_ & _ & _ & n & ->)|[(_ & _ & _ & _ & n & ->)|(_ & _ & _ & _ & _ & ->)]]];
    cbn [take app]; repeat constructor.
Qed.

(** X6. The port [open] returns carries the descriptor libc's [open] gave,
    which is not negative, and the options passed in; [close], [write]
    and [read] on it call libc with that descriptor, [read] for
    [buffer_size] bytes (255 without the option). *)
Theorem open_port_uses_descriptor (L : Libc) (file : jsstring) (o : SerialOptions)
    (w : world L) (p : SerialPort) :
  outcome (open L file o w) = Normal p ->
  let d := fst (stage_open L file w) in
  fd p = d /\ options p = o /\ 0 <= d /\
  (forall w', head (log (close L p w')) = Some (EvClose d)) /\
  (forall w' data,
      head (log (write L p data w')) = Some (EvWrite d data (Z.of_nat (length data)))) /\
  (forall w', valid_length (default 255 (buffer_size o)) ->
              head (log (read L p w')) = Some (EvRead d (default 255 (buffer_size o)))).
Proof.
  intros H. cbv zeta.
  destruct (open_cases L file o w)
    as [(_ & Ho & _)|[(_ & _ & Ho & _)|[(_ & _ & _ & Ho & _)|(Hd & _ & _ & Ho & _)]]];
    rewrite Ho in H; try discriminate.
  injection H as <-. cbn [fd options]. split_ands; try reflexivity; try assumption.
  - intros w'. rewrite close_run. cbv zeta. destruct (_ <? 0); reflexivity.
  - intros w' data. rewrite write_run. cbv zeta.
    destruct (_ <? 0); [reflexivity|]. destruct (_ || _); reflexivity.
  - intros w' Hv. rewrite read_run by exact Hv. cbv zeta.
    destruct (_ <? 0); [reflexivity|]. destruct (ffi_bigint L _); reflexivity.
Qed.

Lemma open_port_uses_descriptor_witness :
  head (log (close sim demo_port (demo_world []))) = Some (EvClose 3) /\
  head (log (read sim demo_port (demo_world []))) = Some (EvRead 3 255).
Proof.
  destruct (open_port_uses_descriptor sim Sim.device demo_options (Sim.boot []) demo_port)
    as (_ & _ & _ & Hc & _ & Hr); [vm_compute; reflexivity|].
  split; [apply Hc | apply Hr; vm_compute; split; discriminate].
Defined.

(** X7. The buffer handed to libc's [open] for an ASCII path holds the
    characters of the path, one byte each, and nothing more: when the
    path has no NUL character, no byte of the buffer is zero. *)
Theorem open_path_has_no_terminator (L : Libc) (file : jsstring) (o : SerialOptions)
    (w : world L) :
  Forall (fun c => 1 <= c < 128) file ->
  head (log (open L file o w)) = Some (EvOpen (map byte_of_Z file) 0x101102) /\
  length (map byte_of_Z file) = length file /\
  x00 ∉ map byte_of_Z file.
Proof.
  intros H.
  assert (Ha : ascii_text file) by (eapply Forall_impl; [exact H | simpl; lia]).
  split_ands.
  - rewrite <- TextEncoder_encode_ascii by assumption.
    destruct (open_cases L file o w)
      as [(_ & _ & n & ->)|[(_ & _ & _ & n & ->)|[(_ & _ & _ & _ & n & ->)|(_ & _ & _ & _ & _ & ->)]]];
      reflexivity.
  - apply length_map.
  - clear Ha. induction H as [|c s Hc _ IH]; cbn [map]; [apply not_elem_of_nil|].
    apply not_elem_of_cons. split; [|exact IH].
    intros E. apply (f_equal byte_to_Z) in E.
    rewrite byte_to_of_Z_small in E by lia. vm_compute in E. lia.
Qed.

Lemma open_path_has_no_terminator_witness :
  head (log (open sim Sim.device demo_options (Sim.boot [])))
  = Some (EvOpen (ascii_bytes "/dev/ttyUSB0") 0x101102) /\
  x00 ∉ ascii_bytes "/dev/ttyUSB0".
Proof.
  destruct (open_path_has_no_terminator sim Sim.device demo_options (Sim.boot []))
    as (Hh & _ & Hn).
  - unfold Sim.device. vm_compute. repeat constructor; discriminate.
  - split; [exact Hh | exact Hn].
Defined.

(** X8. The codes of the baud rates are pairwise distinct, fit the [u32]
    parameter of [cfsetspeed], and have none of the bits that [open]
    edits in the control flags. *)
Theorem Baudrate_codes :
  (forall a b, Baudrate_value a = Baudrate_value b -> a = b) /\
  (forall b, 0 <= Baudrate_value b < 2 ^ 32) /\
  (forall b n, n ∈ edited_bits -> Z.testbit (Baudrate_value b) n = false).
Proof.
  split_ands.
  - intros a b. destruct a, b; vm_compute; congruence.
  - intros b. destruct b; vm_compute; split; congruence.
  - intros b n Hn. unfold edited_bits in Hn.
    repeat (apply elem_of_cons in Hn as [->|Hn]; [destruct b; reflexivity|]).
    now apply elem_of_nil in Hn.
Qed.

(** ** [read] and [read_string] *)

Lemma subarray_prefix (buf : list byte) (rlen : Z) :
  0 <= rlen -> subarray buf 0 rlen = take (Z.to_nat rlen) buf.
Proof.
  intros Hr. unfold subarray, relative_index.
  destruct (Z.ltb_spec 0 0); [lia|]. destruct (Z.ltb_spec rlen 0); [lia|].
  rewrite (Z.min_l 0) by lia. change (Z.to_nat 0) with 0%nat. rewrite drop_0.
  rewrite Z.sub_0_r, Z.max_l by lia.
  destruct (Z.le_ge_cases rlen (Z.of_nat (length buf))) as [Hle|Hge].
  - now rewrite Z.min_l by lia.
  - rewrite Z.min_r by lia. rewrite Nat2Z.id.
    rewrite !take_ge by lia. reflexivity.
Qed.

Lemma read_delivers (L : Libc) (p : SerialPort) (w w' : world L) (bs : list byte) :
  valid_length (read_size p) ->
  Z.of_nat (length bs) <= read_size p ->
  number_result L (Z.of_nat (length bs)) ->
  delivers L p w bs w' ->
  read L p w = (Normal bs, w', [EvRead (fd p) (read_size p)]).
Proof.
  intros Hv Hlen Hnum Hd. rewrite read_run by assumption. cbv zeta.
  unfold delivers in Hd. rewrite Hd. cbn [fst snd].
  unfold number_result in Hnum. rewrite Hnum.
  destruct (Z.ltb_spec (Z.of_nat (length bs)) 0); [lia|].
  rewrite subarray_prefix by lia. rewrite Nat2Z.id.
  rewrite slice_poke_zero by lia. reflexivity.
Qed.

Lemma read_string_delivers (L : Libc) (p : SerialPort) (w w' : world L) (bs : list byte) :
  valid_length (read_size p) ->
  Z.of_nat (length bs) <= read_size p ->
  number_result L (Z.of_nat (length bs)) ->
  delivers L p w bs w' ->
  read_string L p w
  = (Normal (TextDecoder_decode bs), w', [EvRead (fd p) (read_size p)]).
Proof.
  intros Hv Hlen Hnum Hd. unfold read_string, bind.
  rewrite (read_delivers L p w w' bs) by assumption. reflexivity.
Qed.

(** X9. With a [buffer_size] that is no valid length, [read] throws a
    [RangeError] before it reaches libc and leaves the world as it was;
    so do [read_string] and the line generator at its first turn. *)
Theorem read_rejects_invalid_buffer_size (L : Libc) (p : SerialPort) (w : world L) :
  ~ valid_length (read_size p) ->
  read L p w = (Throw RangeError, w, []) /\
  read_string L p w = (Throw RangeError, w, []) /\
  (forall n, read_line L (S n) p w = (Throw RangeError, w, [])).
Proof.
  intros Hv. pose proof (read_invalid L p w Hv) as Hr.
  assert (Hs : read_string L p w = (Throw RangeError, w, []))
    by (unfold read_string, bind; now rewrite Hr).
  split_ands; [exact Hr | exact Hs |].
  intros n. unfold read_line. rewrite read_line_from_S, Hs. reflexivity.
Qed.

Lemma read_rejects_invalid_buffer_size_witness :
  read sim
    {| fd := 3;
       options := {| baudrate := B9600; timeout_in_deciseconds := 10;
                     minimum_number_of_chars_read := 0; buffer_size := Some (-1) |} |}
    (demo_world [ascii_bytes "AB"])
  = (Throw RangeError, demo_world [ascii_bytes "AB"], []).
Proof.
  apply read_rejects_invalid_buffer_size.
  unfold valid_length, read_size. cbn. lia.
Defined.

(** X10. What [read] returns is never longer than [buffer_size] (255 without
    the option), nor longer than the count libc reported, which is then
    not negative. *)
Theorem read_length_bound (L : Libc) (p : SerialPort) (w : world L) (bs : list byte) :
  outcome (read L p w) = Normal bs ->
  let rlen := fst (fst (libc_read L (fd p) (read_size p) w)) in
  0 <= rlen /\
  Z.of_nat (length bs) <= rlen /\
  Z.of_nat (length bs) <= read_size p.
Proof.
  intros H. cbv zeta.
  destruct (decide (valid_length (read_size p))) as [Hv|Hv].
  2:{ rewrite read_invalid in H by assumption. discriminate. }
  rewrite read_run in H by assumption. cbv zeta in H.
  destruct (Z.ltb_spec (fst (fst (libc_read L (fd p) (read_size p) w))) 0) as [Hn|Hn];
    [discriminate|].
  destruct (ffi_bigint L _); [discriminate|].
  unfold outcome in H. cbn [fst] in H. injection H as <-.
  rewrite subarray_prefix by assumption.
  rewrite length_take, length_poke, length_replicate.
  destruct Hv. lia.
Qed.

Lemma read_length_bound_witness :
  Z.of_nat (length (ascii_bytes "AB"))
  <= fst (fst (libc_read sim 3 255 (demo_world [ascii_bytes "AB"]))) /\
  Z.of_nat (length (ascii_bytes "AB")) <= 255.
Proof.
  destruct (read_length_bound sim demo_port (demo_world [ascii_bytes "AB"])
              (ascii_bytes "AB")) as (_ & H1 & H2); [vm_compute; reflexivity|].
  split; [exact H1 | exact H2].
Defined.

(** X11. Bytes in the ASCII range that one read delivers, with a count
    that reaches the program as a number, come out of [read_string] as
    the same characters, with one call of libc's [read]. *)
Theorem read_string_ascii (L : Libc) (p : SerialPort) (w w' : world L) (bs : list byte) :
  valid_length (read_size p) ->
  Z.of_nat (length bs) <= read_size p ->
  number_result L (Z.of_nat (length bs)) ->
  ascii_data bs ->
  delivers L p w bs w' ->
  read_string L p w = (Normal (map byte_to_Z bs), w', [EvRead (fd p) (read_size p)]).
Proof.
  intros Hv Hlen Hnum Ha Hd.
  rewrite (read_string_delivers L p w w' bs) by assumption.
  now rewrite TextDecoder_decode_ascii.
Qed.

Lemma read_string_ascii_witness :
  outcome (read_string sim demo_port (demo_world [ascii_bytes "AB"])) = Normal (lit "AB").
Proof.
  erewrite (read_string_ascii sim demo_port (demo_world [ascii_bytes "AB"]) _
              (ascii_bytes "AB")).
  - reflexivity.
  - vm_compute. split; discriminate.
  - vm_compute. discriminate.
  - vm_compute. reflexivity.
  - repeat constructor.
  - vm_compute. reflexivity.
Defined.

Lemma lor_bound (a b k : Z) :
  0 <= k -> 0 <= a < 2 ^ k -> 0 <= b < 2 ^ k -> 0 <= Z.lor a b < 2 ^ k.
Proof.
  intros Hk Ha Hb.
  assert (H0 : 0 <= Z.lor a b) by (apply Z.lor_nonneg; lia).
  split; [exact H0|].
  destruct (Z.eq_dec (Z.lor a b) 0) as [E|E]; [rewrite E; lia|].
  apply Z.log2_lt_pow2; [lia|].
  rewrite Z.log2_lor by lia.
  assert (Hk' : 0 < k).
  { destruct (Z.eq_dec k 0) as [->|]; [|lia].
    assert (a = 0) by (change (2 ^ 0) with 1 in Ha; lia).
    assert (b = 0) by (change (2 ^ 0) with 1 in Hb; lia).
    subst. now rewrite Z.lor_0_l in E. }
  apply Z.max_lub_lt.
  - destruct (Z.eq_dec a 0) as [->|]; [exact Hk' | apply Z.log2_lt_pow2; lia].
  - destruct (Z.eq_dec b 0) as [->|]; [exact Hk' | apply Z.log2_lt_pow2; lia].
Qed.

Lemma decode_lone_byte (b : byte) :
  0x80 <= byte_to_Z b -> TextDecoder_decode [b] = [0xFFFD].
Proof.
  intros H. pose proof (byte_to_Z_range b) as Hr.
  unfold TextDecoder_decode. cbn [utf8_run]. unfold utf8_step.
  cbn [u_needed utf8_init Z.eqb]. unfold utf8_lead.
  destruct (Z.leb_spec (byte_to_Z b) 0x7F); [lia|].
  destruct ((0xC2 <=? byte_to_Z b) && (byte_to_Z b <=? 0xDF)); [reflexivity|].
  destruct ((0xE0 <=? byte_to_Z b) && (byte_to_Z b <=? 0xEF)); [reflexivity|].
  destruct ((0xF0 <=? byte_to_Z b) && (byte_to_Z b <=? 0xF4)); reflexivity.
Qed.

Lemma decode_two_bytes (b1 b2 : byte) :
  0xC2 <= byte_to_Z b1 <= 0xDF -> 0x80 <= byte_to_Z b2 <= 0xBF ->
  TextDecoder_decode [b1; b2]
  = [Z.lor (Z.shiftl (Z.land (byte_to_Z b1) 0x1F) 6) (Z.land (byte_to_Z b2) 0x3F)] /\
  0 <= Z.lor (Z.shiftl (Z.land (byte_to_Z b1) 0x1F) 6) (Z.land (byte_to_Z b2) 0x3F)
    < 0x800.
Proof.
  intros H1 H2.
  set (cp := Z.lor (Z.shiftl (Z.land (byte_to_Z b1) 0x1F) 6) (Z.land (byte_to_Z b2) 0x3F)).
  assert (Hcp : 0 <= cp < 0x800).
  { unfold cp. change 0x800 with (2 ^ 11). apply lor_bound; [lia| |].
    - change 0x1F with (Z.ones 5). rewrite Z.land_ones, Z.shiftl_mul_pow2 by lia.
      pose proof (Z.mod_pos_bound (byte_to_Z b1) (2 ^ 5) ltac:(lia)). lia.
    - change 0x3F with (Z.ones 6). rewrite Z.land_ones by lia.
      pose proof (Z.mod_pos_bound (byte_to_Z b2) (2 ^ 6) ltac:(lia)). lia. }
  split; [|exact Hcp].
  unfold TextDecoder_decode. cbn [utf8_run]. unfold utf8_step at 1.
  cbn [u_needed utf8_init Z.eqb]. unfold utf8_lead.
  destruct (Z.leb_spec (byte_to_Z b1) 0x7F); [lia|].
  destruct (Z.leb_spec 0xC2 (byte_to_Z b1)); [|lia].
  destruct (Z.leb_spec (byte_to_Z b1) 0xDF); [|lia].
  cbn [andb]. unfold utf8_step.
  cbn [u_needed u_lower u_upper u_seen u_code_point Z.eqb].
  destruct (Z.ltb_spec (byte_to_Z b2) 0x80); [lia|].
  destruct (Z.ltb_spec 0xBF (byte_to_Z b2)); [lia|].
  cbn [orb]. fold cp. change (0 + 1 =? 1) with true. cbv beta iota.
  cbn [u_needed utf8_init]. change (0 =? 0) with true. cbv beta iota.
  cbn [app strip_BOM]. destruct (Z.eqb_spec cp 0xFEFF); [lia|].
  cbn [flat_map]. unfold utf16_of_code_point.
  destruct (Z.ltb_spec cp 0x10000); [reflexivity | lia].
Qed.

(** X12. With counts that reach the program as numbers, a character of
    two UTF-8 bytes is read as that character when one read delivers
    both bytes, and as two replacement characters U+FFFD, one per chunk,
    when two reads deliver one byte each: every read is decoded on its
    own. *)
Theorem read_string_splits_character (L : Libc) (p : SerialPort)
    (w0 w1 w2 w3 w4 : world L) (b1 b2 : byte) :
  valid_length (read_size p) -> 2 <= read_size p ->
  number_result L 1 -> number_result L 2 ->
  0xC2 <= byte_to_Z b1 <= 0xDF -> 0x80 <= byte_to_Z b2 <= 0xBF ->
  delivers L p w0 [b1; b2] w1 ->
  delivers L p w2 [b1] w3 -> delivers L p w3 [b2] w4 ->
  let cp := Z.lor (Z.shiftl (Z.land (byte_to_Z b1) 0x1F) 6) (Z.land (byte_to_Z b2) 0x3F) in
  outcome (read_string L p w0) = Normal [cp] /\ 0 <= cp < 0x800 /\
  outcome (read_strings L 2 p w2) = Normal [[0xFFFD]; [0xFFFD]].
Proof.
  intros Hv Hn N1 N2 H1 H2 D0 D2 D3. cbv zeta.
  destruct (decode_two_bytes b1 b2 H1 H2) as [Hd Hb].
  split_ands; try apply Hb.
  - rewrite (read_string_delivers L p w0 w1 [b1; b2]);
      [|assumption|cbn; lia|exact N2|assumption].
    unfold outcome. cbn [fst]. now rewrite Hd.
  - pose proof (read_string_delivers L p w2 w3 [b1] Hv ltac:(cbn; lia) N1 D2) as E1.
    pose proof (read_string_delivers L p w3 w4 [b2] Hv ltac:(cbn; lia) N1 D3) as E2.
    rewrite decode_lone_byte in E1, E2 by lia.
    assert (E3 : read_strings L 1 p w3
                 = (Normal [[0xFFFD]], w4, [EvRead (fd p) (read_size p)] ++ []))
      by (apply (read_strings_S_intro L p 0 w3 w4 w4 _ [] _ [] E2); reflexivity).
    rewrite (read_strings_S_intro L p 1 w2 w3 w4 _ _ _ _ E1 E3). reflexivity.
Qed.

Lemma read_string_splits_character_witness :
  outcome (read_string sim demo_port (demo_world [[xc3; xa9]])) = Normal [0xE9] /\
  outcome (read_strings sim 2 demo_port (demo_world [[xc3]; [xa9]]))
  = Normal [[0xFFFD]; [0xFFFD]].
Proof.
  edestruct (read_string_splits_character sim demo_port)
    with (w0 := demo_world [[xc3; xa9]]) (w2 := demo_world [[xc3]; [xa9]])
         (b1 := xc3) (b2 := xa9)
    as (Ha & _ & Hb).
  - vm_compute. split; discriminate.
  - vm_compute. discriminate.
  - vm_compute. reflexivity.
  - vm_compute. reflexivity.
  - vm_compute. split; discriminate.
  - vm_compute. split; discriminate.
  - vm_compute. reflexivity.
  - vm_compute. reflexivity.
  - vm_compute. reflexivity.
  - split; [exact Ha | exact Hb].
Defined.

(** ** [write_string] *)

(** X13. ASCII text goes out of [write_string] in one call of libc's [write],
    one byte per character; when one read delivers these bytes, with a
    count that reaches the program as a number, [read_string] returns
    the text that was written. *)
Theorem write_string_ascii_round_trip (L : Libc) (p q : SerialPort) (s : jsstring)
    (w w1 w1' : world L) :
  ascii_text s ->
  valid_length (read_size q) -> Z.of_nat (length s) <= read_size q ->
  number_result L (Z.of_nat (length s)) ->
  delivers L q w1 (map byte_of_Z s) w1' ->
  head (log (write_string L p s w))
  = Some (EvWrite (fd p) (map byte_of_Z s) (Z.of_nat (length s))) /\
  filter (fun e => symbol_of e = sym_write) (log (write_string L p s w))
  = [EvWrite (fd p) (map byte_of_Z s) (Z.of_nat (length s))] /\
  outcome (read_string L q w1) = Normal s.
Proof.
  intros Ha Hv Hlen Hnum Hd.
  assert (Hw : forall P : list event -> Prop,
             P (log (write L p (map byte_of_Z s) w)) -> P (log (write_string L p s w))).
  { intros P HP. unfold write_string. now rewrite TextEncoder_encode_ascii. }
  split_ands.
  - apply Hw. rewrite write_run. cbv zeta. rewrite length_map.
    destruct (_ <? 0); [reflexivity|]. destruct (_ || _); reflexivity.
  - apply Hw. rewrite write_run. cbv zeta. rewrite length_map.
    destruct (geterrnoString_log L (snd (libc_write L (fd p) (map byte_of_Z s)
                                           (Z.of_nat (length s)) w))) as [n Hn].
    destruct (_ <? 0); [|destruct (_ || _)]; unfold log in *; cbn [snd];
      rewrite ?Hn; reflexivity.
  - rewrite (read_string_delivers L q w1 w1' (map byte_of_Z s));
      [|assumption|now rewrite length_map|now rewrite length_map|assumption].
    unfold outcome. cbn [fst].
    rewrite <- TextEncoder_encode_ascii by assumption.
    now rewrite decode_encode_ascii.
Qed.

Lemma write_string_ascii_round_trip_witness :
  outcome (read_string sim demo_port
             (demo_world [ascii_bytes "Test message" ++ [x0a]]))
  = Normal (lit "Test message" ++ [NL]).
Proof.
  edestruct (write_string_ascii_round_trip sim demo_port demo_port)
    with (s := lit "Test message" ++ [NL]) (w := demo_world [])
         (w1 := demo_world [ascii_bytes "Test message" ++ [x0a]])
    as (_ & _ & Hr).
  - vm_compute. repeat constructor; discriminate.
  - vm_compute. split; discriminate.
  - vm_compute. discriminate.
  - vm_compute. reflexivity.
  - vm_compute. reflexivity.
  - exact Hr.
Defined.

(** ** The line generator *)

Lemma split_no_sep (sep : Z) (s : jsstring) : sep ∉ s -> split sep s = [s].
Proof.
  induction s as [|c s IH]; intros H; [reflexivity|].
  apply not_elem_of_cons in H as [Hc Hs]. cbn [split].
  destruct (Z.eqb_spec c sep); [congruence|]. now rewrite IH.
Qed.

Lemma split_app_sep (sep : Z) (a b : jsstring) :
  sep ∉ a -> split sep (a ++ sep :: b) = a :: split sep b.
Proof.
  induction a as [|c a IH]; intros H.
  - cbn [app split]. now rewrite Z.eqb_refl.
  - apply not_elem_of_cons in H as [Hc Ha]. cbn [app split].
    destruct (Z.eqb_spec c sep); [congruence|]. now rewrite IH.
Qed.

Lemma split_join (sep : Z) (ls : list jsstring) (d : jsstring) :
  Forall (fun l => sep ∉ l) ls -> sep ∉ d ->
  split sep (flat_map (fun l => l ++ [sep]) ls ++ d) = ls ++ [d].
Proof.
  intros Hl Hd. induction Hl as [|l ls Hn _ IH].
  - now apply split_no_sep.
  - cbn [flat_map app]. rewrite <- !app_assoc. cbn [app].
    rewrite split_app_sep by assumption. now rewrite IH.
Qed.

Lemma length_split (s : jsstring) : length (split NL s) = S (newlines s).
Proof.
  unfold newlines, jsstring in *. induction s as [|c s IH]; [reflexivity|].
  cbn [split]. rewrite filter_cons.
  destruct (Z.eqb_spec c NL) as [E|Hne]; destruct (decide (c = NL)); try contradiction.
  - cbn [length]. now rewrite IH.
  - destruct (split NL s) as [|seg segs]; [discriminate IH | exact IH].
Qed.

Lemma feed_pending (data read : jsstring) :
  NL ∉ data -> NL ∉ snd (feed data read).
Proof.
  intros Hd. destruct read as [|c read]; [exact Hd|].
  change (feed data (c :: read))
    with (let '(last, lines) := pop (split NL (data ++ c :: read)) in
          (lines, default [] last)).
  destruct (split_snoc NL (data ++ c :: read)) as (init & lst & -> & _ & _ & Hl).
  rewrite pop_snoc. exact Hl.
Qed.

Lemma feed_all_pending (chunks : list jsstring) (data : jsstring) :
  NL ∉ data -> NL ∉ snd (feed_all data chunks).
Proof.
  revert data. induction chunks as [|c chunks IH]; intros data Hd; [exact Hd|].
  cbn [feed_all]. pose proof (feed_pending data c Hd) as Hp.
  destruct (feed data c) as [ls data']. cbn [snd] in Hp.
  specialize (IH data' Hp). destruct (feed_all data' chunks) as [ls' data''].
  exact IH.
Qed.

Lemma feed_all_split (chunks : list jsstring) (data : jsstring) :
  NL ∉ data ->
  fst (feed_all data chunks) ++ [snd (feed_all data chunks)]
  = split NL (data ++ concat chunks).
Proof.
  intros Hd. destruct (feed_all_spec chunks data) as [Hj Hn].
  rewrite <- Hj. symmetry. apply split_join; [exact Hn|].
  now apply feed_all_pending.
Qed.

(** X14. The lines the generator yields, followed by its pending data, are
    the stream of all chunks split at its newlines: how the reads cut the
    stream makes no difference, and the pending data holds no newline. *)
Theorem read_line_splits_stream (L : Libc) (p : SerialPort) (n : nat)
    (w w' : world L) (chunks : list jsstring) (t : list event) :
  read_strings L n p w = (Normal chunks, w', t) ->
  exists pending,
    outcome (read_line L n p w) = Normal pending /\
    yields (log (read_line L n p w)) ++ [pending] = split NL (concat chunks) /\
    NL ∉ pending.
Proof.
  intros H.
  destruct (read_line_from_feed_all L p n [] w _ _ _ H) as (Ho & _ & Hy & _).
  unfold read_line. rewrite Ho, Hy. eexists. split_ands; [reflexivity| |].
  - apply (feed_all_split chunks []). apply not_elem_of_nil.
  - apply feed_all_pending, not_elem_of_nil.
Qed.

Lemma read_line_splits_stream_witness :
  exists pending,
    yields (log (read_line sim 4 demo_port (demo_world four_reads))) ++ [pending]
    = split NL (lit "ABC" ++ [NL] ++ lit "DE" ++ [NL] ++ lit "F").
Proof.
  edestruct (read_line_splits_stream sim demo_port 4 (demo_world four_reads))
    as (pending & _ & Hs & _); [vm_compute; reflexivity|].
  exists pending. exact Hs.
Defined.

(** X15. The generator yields as many lines as the chunks hold newlines. *)
Theorem read_line_counts_newlines (L : Libc) (p : SerialPort) (n : nat)
    (w w' : world L) (chunks : list jsstring) (t : list event) :
  read_strings L n p w = (Normal chunks, w', t) ->
  length (yields (log (read_line L n p w))) = newlines (concat chunks).
Proof.
  intros H.
  destruct (read_line_from_feed_all L p n [] w _ _ _ H) as (_ & _ & Hy & _).
  unfold read_line. rewrite Hy.
  pose proof (feed_all_split chunks [] (not_elem_of_nil _)) as Hs.
  apply (f_equal length) in Hs. rewrite length_app, length_split in Hs.
  cbn [app length] in Hs. lia.
Qed.

Lemma read_line_counts_newlines_witness :
  length (yields (log (read_line sim 4 demo_port (demo_world four_reads)))) = 2%nat.
Proof.
  erewrite (read_line_counts_newlines sim demo_port 4 (demo_world four_reads));
    [|vm_compute; reflexivity].
  vm_compute. reflexivity.
Defined.

Lemma read_line_from_throw (L : Libc) (p : SerialPort) (k : nat) :
  forall (w w1 w2 : world L) (cs : list jsstring) (t1 t2 : list event) (e : exn)
         (data : jsstring) (m : nat),
    read_strings L k p w = (Normal cs, w1, t1) ->
    read_string L p w1 = (Throw e, w2, t2) ->
    outcome (read_line_from L (k + S m) p data w) = Throw e /\
    after (read_line_from L (k + S m) p data w) = w2 /\
    yields (log (read_line_from L (k + S m) p data w)) = fst (feed_all data cs) /\
    syscalls (log (read_line_from L (k + S m) p data w)) = t1 ++ t2.
Proof.
  induction k as [|k IH]; intros w w1 w2 cs t1 t2 e data m H E.
  - cbn [read_strings] in H. unfold ret in H. injection H as <- <- <-.
    cbn [Nat.add]. rewrite read_line_from_S, E.
    pose proof (read_string_log L p w) as [Hy Hs]. rewrite E in Hy, Hs.
    unfold outcome, after, log in *. cbn [fst snd] in *. auto.
  - apply read_strings_S_inv in H as (c & cs' & w0 & ta & tb & -> & Ec & H & ->).
    cbn [Nat.add]. rewrite read_line_from_S, Ec.
    pose proof (read_string_log L p w) as [Hy Hs]. rewrite Ec in Hy, Hs.
    destruct (IH w0 w1 w2 cs' tb t2 e (snd (feed data c)) m H E) as (Ho & Ha & Hyi & Hsy).
    unfold outcome, after, log in *.
    destruct (read_line_from L (k + S m) p (snd (feed data c)) w0) as [[r w3] t3].
    cbn [fst snd] in *. subst r w3. cbn [feed_all].
    destruct (feed data c) as [ls d']. cbn [fst snd] in *.
    destruct (feed_all d' cs') as [ls' d'']. cbn [fst snd] in *.
    split_ands; try reflexivity.
    + rewrite !yields_app, Hy, yields_EvYield, Hyi. reflexivity.
    + rewrite !syscalls_app, Hs, syscalls_EvYield, Hsy, app_nil_r, app_assoc.
      reflexivity.
Qed.

(** X16. When the read after [k] good ones throws, the generator throws the
    same exception at that turn, whatever number of further turns was
    asked for: the lines of the [k] chunks have been yielded, libc is
    not called again, and the pending data is gone with the generator. *)
Theorem read_line_stops_at_error (L : Libc) (p : SerialPort) (k n : nat)
    (w w1 w2 : world L) (cs : list jsstring) (t1 t2 : list event) (e : exn) :
  read_strings L k p w = (Normal cs, w1, t1) ->
  read_string L p w1 = (Throw e, w2, t2) ->
  (k < n)%nat ->
  outcome (read_line L n p w) = Throw e /\
  after (read_line L n p w) = w2 /\
  yields (log (read_line L n p w)) = fst (feed_all [] cs) /\
  syscalls (log (read_line L n p w)) = t1 ++ t2.
Proof.
  intros H E Hk. replace n with (k + S (n - S k))%nat by lia.
  unfold read_line. now apply read_line_from_throw with (w1 := w1).
Qed.

Lemma read_line_stops_at_error_witness :
  let w := after (close sim demo_port (demo_world [])) in
  outcome (read_line sim 3 demo_port w)
  = Throw (Error (lit "Error while reading: Bad file descriptor")) /\
  syscalls (log (read_line sim 3 demo_port w))
  = [EvRead 3 255; EvErrnoLocation; EvStrerror 9].
Proof.
  cbv zeta.
  edestruct (read_line_stops_at_error sim demo_port 0 3
               (after (close sim demo_port (demo_world []))))
    as (Ho & _ & _ & Hs);
    [vm_compute; reflexivity | vm_compute; reflexivity | lia |].
  split; [exact Ho | exact Hs].
Defined.

(** X17. A chunk without a newline yields nothing: the turn appends it to the
    pending data, which so grows until a newline arrives. *)
Theorem read_line_buffers_without_newline (L : Libc) (p : SerialPort)
    (w w1 : world L) (data c : jsstring) (t : list event) :
  read_string L p w = (Normal c, w1, t) ->
  NL ∉ data -> NL ∉ c ->
  read_line_turn L p data w = (Normal (data ++ c), w1, t).
Proof.
  intros E Hd Hc. rewrite read_line_turn_run, E.
  destruct c as [|x c].
  - rewrite feed_nil, !app_nil_r. reflexivity.
  - change (feed data (x :: c))
      with (let '(last, lines) := pop (split NL (data ++ x :: c)) in
            (lines, default [] last)).
    rewrite split_no_sep by (rewrite not_elem_of_app; auto).
    change [data ++ x :: c] with ([] ++ [data ++ x :: c]).
    rewrite pop_snoc. cbn [fst snd map default]. now rewrite app_nil_r.
Qed.

Lemma read_line_buffers_without_newline_witness :
  read_line_turn sim demo_port (lit "AB") (demo_world [ascii_bytes "CD"])
  = (Normal (lit "ABCD"), demo_world [], [EvRead 3 255]).
Proof.
  apply (read_line_buffers_without_newline sim demo_port
           (demo_world [ascii_bytes "CD"]) (demo_world []) (lit "AB") (lit "CD")).
  - vm_compute. reflexivity.
  - apply (bool_decide_unpack _). vm_compute. exact I.
  - apply (bool_decide_unpack _). vm_compute. exact I.
Defined.

(** X18. The first line a turn yields is the pending data followed by the
    chunk up to its first newline, and nothing is taken off it: a
    carriage return before the newline stays at the end of the line. *)
Theorem read_line_first_line (L : Libc) (p : SerialPort) (w w1 : world L)
    (data a b : jsstring) (t : list event) :
  read_string L p w = (Normal (a ++ NL :: b), w1, t) ->
  NL ∉ data -> NL ∉ a ->
  head (yields (log (read_line_turn L p data w))) = Some (data ++ a).
Proof.
  intros E Hd Ha. rewrite read_line_turn_run, E.
  pose proof (read_string_log L p w) as [Hy _]. rewrite E in Hy.
  unfold log in *. cbn [snd] in *.
  rewrite yields_app, Hy, yields_EvYield. cbn [app].
  assert (Hf : feed data (a ++ NL :: b)
               = (let '(last, lines) := pop (split NL (data ++ a ++ NL :: b)) in
                  (lines, default [] last))).
  { unfold feed. destruct a; reflexivity. }
  rewrite Hf, app_assoc, split_app_sep by (rewrite not_elem_of_app; auto).
  destruct (split_snoc NL b) as (init & lst & -> & _).
  change ((data ++ a) :: init ++ [lst]) with (((data ++ a) :: init) ++ [lst]).
  rewrite pop_snoc. reflexivity.
Qed.

Lemma read_line_first_line_witness :
  head (yields (log (read_line_turn sim demo_port []
                       (demo_world [ascii_bytes "AB" ++ [x0d; x0a]]))))
  = Some (lit "AB" ++ [13]).
Proof.
  apply (read_line_first_line sim demo_port
           (demo_world [ascii_bytes "AB" ++ [x0d; x0a]]) (demo_world [])
           [] (lit "AB" ++ [13]) [] [EvRead 3 255]).
  - vm_compute. reflexivity.
  - apply not_elem_of_nil.
  - apply (bool_decide_unpack _). vm_compute. exact I.
Defined.

Lemma read_string_log_shape (L : Libc) (p : SerialPort) (w : world L) :
  Forall (read_line_event p) (log (read_string L p w)).
Proof.
  assert (Hl : log (read_string L p w) = log (read L p w)).
  { unfold read_string, bind, ret, log.
    destruct (read L p w) as [[[bs|e] w1] t1]; cbn [snd]; [apply app_nil_r | reflexivity]. }
  rewrite Hl. destruct (decide (valid_length (read_size p))) as [Hv|Hv].
  - rewrite read_run by assumption. cbv zeta.
    destruct (geterrnoString_log L (snd (libc_read L (fd p) (read_size p) w))) as [n Hn].
    destruct (_ <? 0); [|destruct (ffi_bigint L _)]; unfold log in *; cbn [snd];
      rewrite ?Hn; repeat constructor.
  - rewrite read_invalid by assumption. constructor.
Qed.

(** X19. Whatever the number of turns, the line generator calls nothing
    in libc but [read], with the descriptor of the port and its buffer
    size, and the errno rendering after a failed read: it never writes
    to the port and never closes it. *)
Theorem read_line_only_reads (L : Libc) (p : SerialPort) (n : nat) (w : world L) :
  Forall (read_line_event p) (log (read_line L n p w)).
Proof.
  unfold read_line. generalize (@nil Z). revert w.
  induction n as [|n IH]; intros w data; [constructor|].
  rewrite read_line_from_S.
  pose proof (read_string_log_shape L p w) as Hs.
  destruct (read_string L p w) as [[[c|e] w1] t1]; unfold log in *; cbn [snd] in *;
    [|exact Hs].
  specialize (IH w1 (snd (feed data c))).
  destruct (read_line_from L n p (snd (feed data c)) w1) as [[r w2] t2].
  cbn [snd] in *. rewrite !Forall_app. split_ands; [exact Hs | | exact IH].
  apply Forall_forall. intros e He. apply list_elem_of_fmap in He as (l & -> & _).
  exact I.
Qed.

(** ** [isize] results that arrive as a BigInt *)

(** X20. When the count of libc's [write] reaches the program as a
    BigInt, [write] throws "Couldn't write data" for every count that is
    not negative, the full length included: the strict comparison with
    the length of the data never holds. The one call of libc's [write]
    has been made by then. *)
Theorem write_fails_on_bigint_result (L : Libc) (p : SerialPort) (data : list byte)
    (w : world L) :
  let r := libc_write L (fd p) data (Z.of_nat (length data)) w in
  ffi_bigint L (fst r) = true -> 0 <= fst r ->
  write L p data w
  = (Throw (Error (lit "Couldn't write data")), snd r,
     [EvWrite (fd p) data (Z.of_nat (length data))]).
Proof.
  cbv zeta. intros Hbig Hpos. rewrite write_run. cbv zeta. rewrite Hbig.
  destruct (Z.ltb_spec (fst (libc_write L (fd p) data (Z.of_nat (length data)) w)) 0);
    [lia | reflexivity].
Qed.

(** The simulated line takes both bytes; the runtime hands over 2n. *)
Lemma write_fails_on_bigint_result_witness :
  fst (libc_write sim_bigint 3 (ascii_bytes "AB") 2 (demo_world [])) = 2 /\
  outcome (write sim_bigint demo_port (ascii_bytes "AB") (demo_world []))
  = Throw (Error (lit "Couldn't write data")).
Proof.
  split; [vm_compute; reflexivity|].
  rewrite (write_fails_on_bigint_result sim_bigint demo_port (ascii_bytes "AB")
             (demo_world [])); [reflexivity | reflexivity | vm_compute; discriminate].
Defined.

(** X21. When the count of libc's [read] reaches the program as a
    BigInt and is not negative, [read] throws a [TypeError] at
    [subarray], after libc has stored the bytes and moved the world on;
    [read_string] and the line generator throw the same, so the data of
    that read is lost. *)
Theorem read_fails_on_bigint_result (L : Libc) (p : SerialPort) (w : world L) :
  let r := libc_read L (fd p) (read_size p) w in
  valid_length (read_size p) ->
  ffi_bigint L (fst (fst r)) = true -> 0 <= fst (fst r) ->
  read L p w = (Throw TypeError, snd r, [EvRead (fd p) (read_size p)]) /\
  read_string L p w = (Throw TypeError, snd r, [EvRead (fd p) (read_size p)]) /\
  (forall n, read_line L (S n) p w
             = (Throw TypeError, snd r, [EvRead (fd p) (read_size p)])).
Proof.
  cbv zeta. intros Hv Hbig Hpos.
  assert (Hr : read L p w
               = (Throw TypeError, snd (libc_read L (fd p) (read_size p) w),
                  [EvRead (fd p) (read_size p)])).
  { rewrite read_run by assumption. cbv zeta. rewrite Hbig.
    destruct (Z.ltb_spec (fst (fst (libc_read L (fd p) (read_size p) w))) 0);
      [lia | reflexivity]. }
  assert (Hs : read_string L p w
               = (Throw TypeError, snd (libc_read L (fd p) (read_size p) w),
                  [EvRead (fd p) (read_size p)]))
    by (unfold read_string, bind; now rewrite Hr).
  split_ands; [exact Hr | exact Hs |].
  intros n. unfold read_line. rewrite read_line_from_S, Hs. reflexivity.
Qed.

(** The simulated line delivers "AB"; the runtime hands over 2n. *)
Lemma read_fails_on_bigint_result_witness :
  outcome (read sim_bigint demo_port (demo_world [ascii_bytes "AB"])) = Throw TypeError /\
  Sim.rx (after (read sim_bigint demo_port (demo_world [ascii_bytes "AB"]))) = [].
Proof.
  destruct (read_fails_on_bigint_result sim_bigint demo_port
              (demo_world [ascii_bytes "AB"])) as (Hr & _);
    [vm_compute; split; discriminate | reflexivity | vm_compute; discriminate |].
  rewrite Hr. split; reflexivity.
Defined.
